(** * Hugo: page reference index, layout cascade, template identifier
      normalisation and the site build driver.

    A shallow embedding of
    - [hugolib/page_collections.go]  (reference index, [getPageNew]),
    - [output/layout.go]             ([LayoutHandler.For], [regularPageLayouts]),
    - [tpl/.../template_ast_transformers.go] ([paramsKeysToLower] and friends),
    - [hugolib/site.go]              ([Site.Build] and the render phases),
    followed by the properties established about them. *)

From Stdlib Require Import Ascii String List Bool Arith Lia.
From stdpp Require Import base option list gmap strings.

Import ListNotations.
Local Open Scope string_scope.
Local Open Scope list_scope.

(* ===================================================================== *)
(** ** Go's [strings] and [path] packages, on byte strings               *)
(* ===================================================================== *)

(** A Go [string] is a sequence of bytes; [String.string] is the same thing.
    The functions below follow the documented behaviour of the Go standard
    library functions of the same name. *)
Module strings.

(** [strings.HasPrefix(s, prefix)] *)
Definition HasPrefix (s prefix : string) : bool := String.prefix prefix s.

(** [strings.TrimPrefix(s, prefix)] *)
Definition TrimPrefix (s prefix : string) : string :=
  if HasPrefix s prefix
  then String.substring (String.length prefix)
                        (String.length s - String.length prefix) s
  else s.

(** [strings.HasSuffix(s, suffix)] *)
Definition HasSuffix (s suffix : string) : bool :=
  (String.length suffix <=? String.length s)%nat &&
  String.eqb
    (String.substring (String.length s - String.length suffix)
                      (String.length suffix) s)
    suffix.

(** [strings.TrimSuffix(s, suffix)] *)
Definition TrimSuffix (s suffix : string) : string :=
  if HasSuffix s suffix
  then String.substring 0 (String.length s - String.length suffix) s
  else s.

(** [strings.Join(elems, sep)] *)
Definition Join (elems : list string) (sep : string) : string :=
  String.concat sep elems.

(** The scanner behind [Split]: [skip] counts the bytes of a separator
    still to be dropped, [cur] is the piece under construction. *)
Fixpoint split_go (sep : string) (skip : nat) (cur : string) (s : string)
  : list string :=
  match s with
  | EmptyString => [cur]
  | String ch rest =>
      match skip with
      | S k => split_go sep k cur rest
      | O =>
          if String.prefix sep s
          then cur :: split_go sep (String.length sep - 1) EmptyString rest
          else split_go sep O (cur ++ String ch EmptyString)%string rest
      end
  end.

(** [strings.Split(s, sep)] for a non-empty separator: the pieces of [s]
    between the non-overlapping occurrences of [sep], at least one piece. *)
Definition Split (s sep : string) : list string := split_go sep 0 "" s.

Definition lower_byte (ch : ascii) : ascii :=
  let n := nat_of_ascii ch in
  if (65 <=? n)%nat && (n <=? 90)%nat then ascii_of_nat (n + 32) else ch.

(** [strings.ToLower(s)] on ASCII text: the letters [A]..[Z] are mapped to
    [a]..[z], every other byte is kept. *)
Fixpoint ToLower (s : string) : string :=
  match s with
  | EmptyString => EmptyString
  | String ch rest => String (lower_byte ch) (ToLower rest)
  end.

(** The white space of [unicode.IsSpace] that fits in one ASCII byte. *)
Definition isSpace (ch : ascii) : bool :=
  let n := nat_of_ascii ch in
  ((9 <=? n)%nat && (n <=? 13)%nat) || (n =? 32)%nat.

Fixpoint fields_go (cur : string) (s : string) : list string :=
  match s with
  | EmptyString => if String.eqb cur "" then [] else [cur]
  | String ch rest =>
      if isSpace ch
      then (if String.eqb cur "" then fields_go "" rest
            else cur :: fields_go "" rest)
      else fields_go (cur ++ String ch EmptyString)%string rest
  end.

(** [strings.Fields(s)]: the maximal runs of non-space bytes of [s]. *)
Definition Fields (s : string) : list string := fields_go "" s.

(** First pair of [oldnew] whose [old] starts [s], if any. *)
Fixpoint replacer_match (oldnew : list (string * string)) (s : string)
  : option (string * string) :=
  match oldnew with
  | [] => None
  | (old, new) :: more =>
      if String.prefix old s then Some (old, new)
      else replacer_match more s
  end.

Fixpoint replace_go (oldnew : list (string * string)) (skip : nat)
  (s : string) : string :=
  match s with
  | EmptyString => EmptyString
  | String ch rest =>
      match skip with
      | S k => replace_go oldnew k rest
      | O =>
          match replacer_match oldnew s with
          | Some (old, new) =>
              (new ++ replace_go oldnew (String.length old - 1) rest)%string
          | None => String ch (replace_go oldnew O rest)
          end
      end
  end.

(** [strings.NewReplacer(oldnew...).Replace(s)] for non-empty [old]
    strings: one left-to-right pass, at each position the first pair in
    argument order that matches wins, replaced text is not rescanned. *)
Definition Replace (oldnew : list (string * string)) (s : string) : string :=
  replace_go oldnew 0 s.

(** [strings.Replace(s, old, new, -1)] for a non-empty [old]. *)
Definition ReplaceAll (s old new : string) : string :=
  replace_go [(old, new)] 0 s.

Fixpoint trim_left_with (f : ascii -> bool) (s : string) : string :=
  match s with
  | EmptyString => EmptyString
  | String ch rest => if f ch then trim_left_with f rest else s
  end.

Definition reverse (s : string) : string :=
  string_of_list_ascii (rev (list_ascii_of_string s)).

Definition trim_right_with (f : ascii -> bool) (s : string) : string :=
  reverse (trim_left_with f (reverse s)).

(** [strings.TrimSpace(s)], on ASCII white space. *)
Definition TrimSpace (s : string) : string :=
  trim_right_with isSpace (trim_left_with isSpace s).

(** [strings.TrimRight(s, cutset)] *)
Definition TrimRight (s cutset : string) : string :=
  trim_right_with
    (fun ch => existsb (Ascii.eqb ch) (list_ascii_of_string cutset)) s.

End strings.

Module path.

Definition clean_step (rooted : bool) (st : list string) (comp : string)
  : list string :=
  if String.eqb comp "" || String.eqb comp "." then st
  else if String.eqb comp ".." then
    match st with
    | top :: below => if String.eqb top ".." then comp :: st else below
    | [] => if rooted then [] else [comp]
    end
  else comp :: st.

(** [path.Clean(p)]: collapse repeated slashes, drop [.] elements, cancel
    each inner [..] against the element before it, drop [..] at the root;
    the empty result is ["."]. The stack is kept innermost element first. *)
Definition Clean (p : string) : string :=
  if String.eqb p "" then "." else
  let rooted := strings.HasPrefix p "/" in
  let st := fold_left (clean_step rooted) (strings.Split p "/") [] in
  let out := ((if rooted then "/" else "") ++ strings.Join (rev st) "/")%string in
  if String.eqb out "" then "." else out.

(** [path.Join(elem...)]: leading empty elements are ignored, the rest is
    joined with slashes and cleaned; all empty gives the empty string. *)
Fixpoint Join (elem : list string) : string :=
  match elem with
  | [] => ""
  | e :: more =>
      if String.eqb e "" then Join more
      else Clean (strings.Join elem "/")
  end.

(** Position just after the last slash of [s], counted from the left. *)
Fixpoint after_last_slash (s : string) : nat :=
  match s with
  | EmptyString => 0
  | String ch rest =>
      if existsb (Ascii.eqb "/"%char) (list_ascii_of_string rest)
      then S (after_last_slash rest)
      else if Ascii.eqb ch "/"%char then 1 else 0
  end.

(** [path.Split(p)]: [(dir, file)], split right after the final slash. *)
Definition Split (p : string) : string * string :=
  let i := after_last_slash p in
  (String.substring 0 i p, String.substring i (String.length p - i) p).

Fixpoint strip_trailing_slashes (fuel : nat) (p : string) : string :=
  match fuel with
  | O => p
  | S k => if strings.HasSuffix p "/"
           then strip_trailing_slashes k (strings.TrimSuffix p "/")
           else p
  end.

(** [path.Base(p)]: the last element of [p]. *)
Definition Base (p : string) : string :=
  if String.eqb p "" then "." else
  let p := strip_trailing_slashes (String.length p) p in
  let p := snd (Split p) in
  if String.eqb p "" then "/" else p.

End path.


(* ===================================================================== *)
(** ** [hugolib/page_collections.go]                                     *)
(* ===================================================================== *)

Module hugolib.

(** Go's [error] values built in this file, kept structured: each
    constructor is one [fmt.Errorf] call, its arguments the values
    formatted into the message. *)
Inductive error : Type :=
| ErrAmbiguous (ref : string)
    (* "page reference %q is ambiguous" *)
| ErrLoad (msg : string)
    (* an error returned by the index loader *)
| ErrResolveRelative (page : string) (cause : error)
    (* "failed to resolve page relative to page %q: %s" *)
| ErrResolve (cause : error).
    (* "failed to resolve page: %s" *)



(** A [*Page]. [addr] is the identity of the allocation, so that two
    pages are the same pointer exactly when they are the same value; the
    other fields are what this file reads of a page. [site] is [p.s],
    and [Lang], [absoluteSourceRef], [LogicalName] and
    [TranslationBaseName] hold what the methods of these names return
    (the last two on [p.Source]). *)
Record Page : Type := mkPage {
  addr : positive;
  Kind : string;
  title : string;
  sections : list string;
  site : option positive;
  Lang : string;
  absoluteSourceRef : string;
  LogicalName : string;
  TranslationBaseName : string;
}.

#[global] Instance Page_eq_dec : EqDecision Page.
Proof. solve_decision. Defined.

Definition Pages : Type := list Page.

(** Modelled from the spec: the page kind constants [KindPage] and
    [kindUnknown] are declared in another file of the package; the spec
    names the kinds "regular page" and "unknown/ambiguity-sentinel". *)
Definition KindPage : string := "page".
Definition kindUnknown : string := "unknown".

(** [var ambiguityFlag = &Page{Kind: kindUnknown, title: "ambiguity flag"}],
    allocated once for the package. *)
Definition ambiguityFlag : Page :=
  mkPage 1 kindUnknown "ambiguity flag" [] None "" "" "" "".

(** Modelled from the spec: [cache.Lazy] lives in package [cache]; the
    spec describes it as a map built by a loader that is deferred until
    the first lookup and memoized. A [Lazy] is its loader, [Get] runs it
    and reports the loader's error or the binding of the key. *)
Record Lazy : Type := NewLazy {
  loader : unit -> gmap string Page * option error;
}.

(** Modelled from the spec: [Lazy.Get] returns the value bound to the key,
    whether the key was found, and the error of the loader. *)
Definition Get (l : Lazy) (key : string)
  : option Page * bool * option error :=
  let '(m, err) := loader l tt in
  match err with
  | Some e => (None, false, Some e)
  | None => (m !! key, bool_decide (is_Some (m !! key)), None)
  end.

Record PageCollections : Type := mkPageCollections {
  Pages_ : Pages;
  AllPages : Pages;
  indexPages : Pages;
  RegularPages : Pages;
  AllRegularPages : Pages;
  rawAllPages : Pages;
  headlessPages : Pages;
  pageIndex : Lazy;
}.

Definition getFromCache (c : PageCollections) (ref : string)
  : option Page * option error :=
  let '(v, found, err) := Get (pageIndex c) ref in
  match err with
  | Some e => (None, Some e)
  | None =>
      if negb found then (None, None)
      else
        match v with
        | None => (None, None)
        | Some p =>
            if bool_decide (p ≠ ambiguityFlag) then (Some p, None)
            else (None, Some (ErrAmbiguous ref))
        end
  end.

Definition findPagesByKindIn (kind : string) (inPages : Pages) : Pages :=
  fold_left (fun pages p =>
               if String.eqb (Kind p) kind then pages ++ [p] else pages)
            inPages [].

Definition findPagesByKindNotIn (kind : string) (inPages : Pages) : Pages :=
  fold_left (fun pages p =>
               if negb (String.eqb (Kind p) kind) then pages ++ [p]
               else pages)
            inPages [].

(** The closure [add] of the index loader, the index passed explicitly. *)
Definition add (ref : string) (p : Page) (index : gmap string Page)
  : gmap string Page :=
  match index !! ref with
  | None => <[ref := p]> index
  | Some existing =>
      if bool_decide (existing ≠ ambiguityFlag) && bool_decide (existing ≠ p)
      then <[ref := ambiguityFlag]> index
      else index
  end.

(** Body of the loop over the regular and the headless pages; [s] is the
    site of the first page of [c.Pages], [None] when there is none. *)
Definition indexRegularPage (s : option positive)
  (index : gmap string Page) (p : Page) : gmap string Page :=
  let sourceRef := absoluteSourceRef p in
  let index := add (path.Join [("/" ++ Lang p)%string; sourceRef]) p index in
  if bool_decide (s ≠ None) && bool_decide (site p = s) then
    let index :=
      if negb (String.eqb sourceRef "") then add sourceRef p index
      else index in
    let index := add (LogicalName p) p index in
    let translationBaseName := TranslationBaseName p in
    let dir := fst (path.Split sourceRef) in
    let dir := strings.TrimSuffix dir "/" in
    let index :=
      if String.eqb translationBaseName "index"
      then add (path.Base dir) p (add dir p index)
      else add translationBaseName p index in
    let pathWithNoExtensions := path.Join [dir; translationBaseName] in
    add pathWithNoExtensions p index
  else index.

(** Body of the loop over the index pages. *)
Definition indexIndexPage (index : gmap string Page) (p : Page)
  : gmap string Page :=
  let sourceRef := absoluteSourceRef p in
  let index :=
    if negb (String.eqb sourceRef "") then add sourceRef p index
    else index in
  let ref := path.Join (sections p) in
  add ("/" ++ ref)%string p index.

Definition indexLoader (s : option positive) (c : PageCollections) (_ : unit)
  : gmap string Page * option error :=
  let index : gmap string Page := ∅ in
  let index :=
    fold_left
      (fun index pageCollection =>
         fold_left (indexRegularPage s) pageCollection index)
      [AllRegularPages c; headlessPages c] index in
  let index := fold_left indexIndexPage (indexPages c) index in
  (index, None).

Definition refreshPageCaches (c : PageCollections) : PageCollections :=
  let indexPages' := findPagesByKindNotIn KindPage (Pages_ c) in
  let RegularPages' := findPagesByKindIn KindPage (Pages_ c) in
  let AllRegularPages' := findPagesByKindIn KindPage (AllPages c) in
  let s := match Pages_ c with
           | p0 :: _ => site p0
           | [] => None
           end in
  let c' := mkPageCollections (Pages_ c) (AllPages c) indexPages'
              RegularPages' AllRegularPages' (rawAllPages c)
              (headlessPages c) (pageIndex c) in
  mkPageCollections (Pages_ c) (AllPages c) indexPages'
    RegularPages' AllRegularPages' (rawAllPages c)
    (headlessPages c) (NewLazy (indexLoader s c')).

(** [context] is a [*Page], [None] for [nil]. As in the source, the last
    lookup assigns its page to [context] again. *)
Definition getPageNew (c : PageCollections) (context : option Page)
  (ref : string) : option Page * option error :=
  match (if strings.HasPrefix ref "/" then getFromCache c ref
         else (None, None)) with
  | (Some p, None) => (Some p, None)
  | _ =>
  match (match context with
         | Some ctx =>
             let ppath :=
               path.Join ["/"; strings.Join (sections ctx) "/"; ref] in
             getFromCache c ppath
         | None => (None, None)
         end) with
  | (Some p, None) => (Some p, None)
  | _ =>
  match (if negb (strings.HasPrefix ref "/")
         then getFromCache c ("/" ++ ref)%string
         else (None, None)) with
  | (Some p, None) => (Some p, None)
  | _ =>
      let ref := strings.TrimPrefix ref "/" in
      let '(context, err) := getFromCache c ref in
      match err with
      | Some e =>
          match context with
          | Some ctx =>
              (None, Some (ErrResolveRelative (absoluteSourceRef ctx) e))
          | None => (None, Some (ErrResolve e))
          end
      | None => (context, None)
      end
  end end end.

Definition findFirstPageByKindIn (kind : string) (inPages : Pages)
  : option Page :=
  List.find (fun p => String.eqb (Kind p) kind) inPages.

Definition findPagesByKind (c : PageCollections) (kind : string) : Pages :=
  findPagesByKindIn kind (Pages_ c).

Definition getPage (c : PageCollections) (typ : string)
  (sections : list string) : option Page :=
  fst (getPageNew c None ("/" ++ path.Join sections)%string).

End hugolib.

(* ===================================================================== *)
(** ** [output/layout.go]                                                *)
(* ===================================================================== *)

Module output.

(** The interface [LayoutIdentifier], as the values its four methods
    return. *)
Record LayoutIdentifier : Type := mkLayoutIdentifier {
  PageType : string;
  PageSection : string;
  PageKind : string;
  PageLayout : string;
}.

(** What [For] reads of an output format [Type]: [tp.Name] and
    [tp.MediaType.Suffix]. *)
Record MediaType_ : Type := mkMediaType { Suffix : string }.
Record Type_ : Type := mkType { Name : string; MediaType : MediaType_ }.

Record LayoutHandler : Type := NewLayoutHandler { hasTheme : bool }.

Definition layoutsHome : string :=
  "index.NAME.SUFFIX index.SUFFIX _default/list.NAME.SUFFIX _default/list.SUFFIX".

Definition layoutsSection : string := "
section/SECTION.NAME.SUFFIX section/SECTION.SUFFIX
SECTION/list.NAME.SUFFIX SECTION/list.SUFFIX
_default/section.NAME.SUFFIX _default/section.SUFFIX
_default/list.NAME.SUFFIX _default/list.SUFFIX
indexes/SECTION.NAME.SUFFIX indexes/SECTION.SUFFIX
_default/indexes.NAME.SUFFIX _default/indexes.SUFFIX
".

Definition layoutTaxonomy : string := "
taxonomy/SECTION.NAME.SUFFIX taxonomy/SECTION.SUFFIX
indexes/SECTION.NAME.SUFFIX indexes/SECTION.SUFFIX 
_default/taxonomy.NAME.SUFFIX _default/taxonomy.SUFFIX
_default/list.NAME.SUFFIX _default/list.SUFFIX
".

Definition layoutTaxonomyTerm : string := "
taxonomy/SECTION.terms.NAME.SUFFIX taxonomy/SECTION.terms.SUFFIX
_default/terms.NAME.SUFFIX _default/terms.SUFFIX
indexes/indexes.NAME.SUFFIX indexes/indexes.SUFFIX
".

Definition replaceKeyValues (s : string) (oldNew : list (string * string))
  : string :=
  strings.Replace oldNew s.

Definition resolveTemplate (templ : string) (id : LayoutIdentifier)
  (tp : Type_) : list string :=
  strings.Fields
    (replaceKeyValues templ
       [("SUFFIX", Suffix (MediaType tp));
        ("NAME", strings.ToLower (Name tp));
        ("SECTION", PageSection id)]).

(** [fmt.Sprintf("%s/%s.%s.%s", dir, layout, name, suffix)] and
    [fmt.Sprintf("%s/%s.%s", dir, layout, suffix)]. *)
Definition sprintf4 (dir layout name suffix : string) : string :=
  (dir ++ "/" ++ layout ++ "." ++ name ++ "." ++ suffix)%string.
Definition sprintf3 (dir layout suffix : string) : string :=
  (dir ++ "/" ++ layout ++ "." ++ suffix)%string.

Definition regularPageLayouts (types layout : string) (tp : Type_)
  : list string :=
  let layout := if String.eqb layout "" then "single" else layout in
  let suffix := Suffix (MediaType tp) in
  let name := strings.ToLower (Name tp) in
  let layouts : list string := [] in
  let layouts :=
    if negb (String.eqb types "") then
      let t := strings.Split types "/" in
      fold_left
        (fun layouts i =>
           let search := firstn (length t - i) t in
           let layouts :=
             layouts ++ [sprintf4 (strings.ToLower (path.Join search))
                                  layout name suffix] in
           layouts ++ [sprintf3 (strings.ToLower (path.Join search))
                                layout suffix])
        (seq 0 (length t)) layouts
    else layouts in
  let layouts := layouts ++ [sprintf4 "_default" layout name suffix] in
  layouts ++ [sprintf3 "_default" layout suffix].

(** The [switch id.PageKind()] of [For]. *)
Definition kindLayouts (id : LayoutIdentifier) (layoutOverride : string)
  (tp : Type_) : list string :=
  let layout := PageLayout id in
  let layout :=
    if negb (String.eqb layoutOverride "") then layoutOverride else layout in
  let kind := PageKind id in
  if String.eqb kind "home" then resolveTemplate layoutsHome id tp
  else if String.eqb kind "section" then resolveTemplate layoutsSection id tp
  else if String.eqb kind "taxonomy" then resolveTemplate layoutTaxonomy id tp
  else if String.eqb kind "taxonomyTerm"
       then resolveTemplate layoutTaxonomyTerm id tp
  else if String.eqb kind "page"
       then regularPageLayouts (PageType id) layout tp
  else [].

(** The three loops of the [if l.hasTheme] block of [For]. *)
Definition layoutsWithThemeLayouts (layouts : list string) : list string :=
  let out : list string := [] in
  let out :=
    fold_left
      (fun out t =>
         if negb (strings.HasPrefix t "_internal/") then out ++ [t] else out)
      layouts out in
  let out :=
    fold_left
      (fun out t =>
         if negb (strings.HasPrefix t "_internal/")
         then out ++ [("theme/" ++ t)%string] else out)
      layouts out in
  fold_left
    (fun out t =>
       if strings.HasPrefix t "_internal/" then out ++ [t] else out)
    layouts out.

Definition For (l : LayoutHandler) (id : LayoutIdentifier)
  (layoutOverride : string) (tp : Type_) : list string :=
  let layouts := kindLayouts id layoutOverride tp in
  if hasTheme l then layoutsWithThemeLayouts layouts else layouts.

End output.


(* ===================================================================== *)
(** ** Outcomes of code that may panic or loop                           *)
(* ===================================================================== *)

(** [Ok a]: the call returns [a]. [Panic]: the call does not return, the
    program stops in a run-time panic (an index out of range, a failed type
    assertion) or a fatal exit. [OutOfFuel]: the loop or recursion bound
    given to the model was reached before the call returned. *)
Inductive outcome (A : Type) : Type :=
| Ok (a : A)
| Panic
| OutOfFuel.
Arguments Ok {A} a.
Arguments Panic {A}.
Arguments OutOfFuel {A}.

Definition obind {A B : Type} (m : outcome A) (k : A -> outcome B)
  : outcome B :=
  match m with
  | Ok a => k a
  | Panic => Panic
  | OutOfFuel => OutOfFuel
  end.

#[global] Instance outcome_bind : MBind outcome :=
  fun A B k m => obind m k.
#[global] Instance outcome_ret : MRet outcome := @Ok.

(* ===================================================================== *)
(** ** The template AST transformer (package [tpl])                      *)
(* ===================================================================== *)

Module tpl.

(** The nodes of [text/template/parse] that the pass looks at. Children
    are [parse.Node] values, so they are plain [Node]s here; [NilNode] is
    a nil node (a missing [ElseList]), [OtherNode] any other kind of node
    (text, identifier, number, ...) with its [String()]. [Decl] lists the
    [Ident] of each declared variable node. *)
#[warnings="-register-all"]
Inductive Node : Type :=
| NilNode
| ListNode (Nodes : list Node)
| ActionNode (Pipe : Node)
| IfNode (Pipe List ElseList : Node)
| WithNode (Pipe List ElseList : Node)
| RangeNode (Pipe List ElseList : Node)
| TemplateNode (Name : string)
| PipeNode (Decl : list (list string)) (Cmds : list Node)
| CommandNode (Args : list Node)
| FieldNode (Ident : list string)
| VariableNode (Ident : list string)
| OtherNode (text : string).

(** [VariableNode.String()]: the identifiers joined by dots. *)
Definition variableString (Ident : list string) : string :=
  strings.Join Ident ".".

(** [FieldNode.String()]: each identifier preceded by a dot. *)
Definition fieldString (Ident : list string) : string :=
  String.concat "" (map (fun id => ("." ++ id)%string) Ident).

(** [String()] of the nodes that occur in a command: a command is its
    arguments separated by spaces, an argument that is a pipeline is put
    in parentheses, a pipeline is its declarations, [" := "] and its
    commands separated by [" | "]. The text of the statement nodes, which
    the parser never puts inside a command, is left empty. *)
Fixpoint String_ (n : Node) : string :=
  match n with
  | FieldNode Ident => fieldString Ident
  | VariableNode Ident => variableString Ident
  | OtherNode text => text
  | CommandNode Args =>
      strings.Join
        (map (fun arg =>
                match arg with
                | PipeNode _ _ => ("(" ++ String_ arg ++ ")")%string
                | _ => String_ arg
                end) Args) " "
  | PipeNode Decl Cmds =>
      ((match Decl with
        | [] => ""
        | _ => strings.Join (map variableString Decl) ", " ++ " := "
        end) ++ strings.Join (map String_ Cmds) " | ")%string
  | _ => ""
  end.

(** [type decl map[string]string] *)
Abbreviation decl := (gmap string string).

(** First byte of [s] is ['$']; [false] on the empty string. *)
Definition startsWithDollar (s : string) : bool :=
  match s with
  | String ch _ => Ascii.eqb ch "$"%char
  | EmptyString => false
  end.

Definition sliceStartsWith (slice words : list string) : bool :=
  if (length slice <? length words)%nat then false
  else
    forallb
      (fun '(i, word) =>
         match slice !! i with
         | Some x => String.eqb word x
         | None => false
         end)
      (imap (fun i word => (i, word)) words).

(** The [for i, ident := range idents] loop of
    [indexOfFirstRealIdentAfterWords], from position [i] on. *)
Fixpoint firstRealIdent (words : list string) (i : Z) (idents : list string)
  : Z :=
  match idents with
  | [] => (-1)%Z
  | ident :: more =>
      if String.eqb ident "" || startsWithDollar ident
      then firstRealIdent words (i + 1)%Z more
      else
        let found := negb (existsb (fun word => String.eqb ident word) words) in
        if found then i else firstRealIdent words (i + 1)%Z more
  end.

Definition indexOfFirstRealIdentAfterWords
  (resolvedIdents idents words : list string) : Z :=
  if negb (sliceStartsWith resolvedIdents words) then (-1)%Z
  else firstRealIdent words 0%Z idents.

Definition paramsPaths : list (list string) :=
  [ ["Params"];
    ["Site"; "Params"];
    ["Page"; "Site"; "Params"];
    ["Page"; "Params"];
    ["Site"; "Language"; "Params"] ].

(** The loop "until there are no more $vars to resolve" of
    [indexOfReplacementStart], at index [i]. [Ok None] is the early
    [return -1] on an unknown variable, [Ok (Some replaced)] the normal
    exit. [replacements] may grow while it is scanned, so the loop need
    not end: [fuel] bounds the number of iterations. *)
Fixpoint resolveLoop (fuel : nat) (d : decl) (replacements : list string)
  (i : nat) (replaced : list string) : outcome (option (list string)) :=
  match fuel with
  | O => OutOfFuel
  | S fuel =>
      match replacements !! i with
      | None => Ok (Some replaced)
      | Some potentialVar =>
          if String.eqb potentialVar "$" then
            resolveLoop fuel d replacements (S i) replaced
          else if String.eqb potentialVar ""
                  || negb (startsWithDollar potentialVar) then
            resolveLoop fuel d replacements (S i)
              (replaced ++ strings.Split potentialVar ".")
          else
            match d !! potentialVar with
            | None => Ok None
            | Some replacement =>
                let replacement := strings.TrimPrefix replacement "." in
                if String.eqb replacement "" then
                  resolveLoop fuel d replacements (S i) replaced
                else if startsWithDollar replacement then
                  resolveLoop fuel d
                    (replacements ++ strings.Split replacement ".")
                    (S i) replaced
                else
                  resolveLoop fuel d replacements (S i)
                    (replaced ++ strings.Split replacement ".")
            end
      end
  end.

(** The [for _, paramPath := range paramsPaths] loop. *)
Fixpoint firstParamsPath (resolvedIdents idents : list string)
  (paths : list (list string)) : Z :=
  match paths with
  | [] => (-1)%Z
  | paramPath :: more =>
      let index :=
        indexOfFirstRealIdentAfterWords resolvedIdents idents paramPath in
      if negb (index =? -1)%Z then index
      else firstParamsPath resolvedIdents idents more
  end.

(** The first part of [indexOfReplacementStart], up to the assignment of
    [resolvedIdents]: the identifier with its variables resolved. [Ok None]
    stands for the two early [return -1]. *)
Definition resolvedIdents (fuel : nat) (d : decl) (idents : list string)
  : outcome (option (list string)) :=
  match idents with
  | [] => Ok None
  | ident0 :: rest =>
      let replacements := strings.Split ident0 "." in
      r ← resolveLoop fuel d replacements 0 [];
      match r with
      | None => Ok None
      | Some replaced => Ok (Some (replaced ++ rest))
      end
  end.

Definition indexOfReplacementStart (fuel : nat) (d : decl)
  (idents : list string) : outcome Z :=
  r ← resolvedIdents fuel d idents;
  match r with
  | None => Ok (-1)%Z
  | Some resolved => Ok (firstParamsPath resolved idents paramsPaths)
  end.

(** [idents] is updated in place by the source; the new slice is
    returned here. *)
Definition updateIdentsIfNeeded (fuel : nat) (d : decl)
  (idents : list string) : outcome (list string) :=
  index ← indexOfReplacementStart fuel d idents;
  if (index =? -1)%Z then Ok idents
  else
    Ok (fold_left
          (fun idents i =>
             match idents !! i with
             | Some x => <[i := strings.ToLower x]> idents
             | None => idents
             end)
          (seq (Z.to_nat index) (length idents - Z.to_nat index))
          idents).

(** [templ] is the set of templates that [c.templ.Lookup] searches, each
    name bound to the root of its parsed tree. The trees are shared and
    rewritten in place by the source: a tree reached through a
    [TemplateNode] is stored back under its name. (A template that includes
    itself, directly or not, is walked without end, so the tree being
    walked is never one that a nested walk rewrites.) *)
Record templateContext : Type := mkTemplateContext {
  decl_ : decl;
  templ : gmap string Node;
}.

Fixpoint walkNodes
  (walk : templateContext -> Node -> outcome (templateContext * Node))
  (c : templateContext) (nodes : list Node)
  : outcome (templateContext * list Node) :=
  match nodes with
  | [] => Ok (c, [])
  | n :: more =>
      '(c, n') ← walk c n;
      '(c, more') ← walkNodes walk c more;
      Ok (c, n' :: more')
  end.

(** The [for i, elem := range x.Decl] loop of the [PipeNode] case. *)
Fixpoint recordDecls (d : decl) (i : nat) (Decl : list (list string))
  (Cmds : list Node) : outcome decl :=
  match Decl with
  | [] => Ok d
  | elem :: more =>
      if (i <? length Cmds)%nat then
        match elem, Cmds !! i with
        | ident0 :: _, Some cmd =>
            recordDecls (<[ident0 := String_ cmd]> d) (S i) more Cmds
        | _, _ => Panic
        end
      else recordDecls d (S i) more Cmds
  end.

(** The [for _, elem := range x.Args] loop of the [CommandNode] case. *)
Fixpoint updateArgs (fuel : nat) (d : decl) (Args : list Node)
  : outcome (list Node) :=
  match Args with
  | [] => Ok []
  | elem :: more =>
      elem' ← match elem with
               | FieldNode Ident =>
                   Ident' ← updateIdentsIfNeeded fuel d Ident;
                   Ok (FieldNode Ident')
               | VariableNode Ident =>
                   Ident' ← updateIdentsIfNeeded fuel d Ident;
                   Ok (VariableNode Ident')
               | _ => Ok elem
               end;
      more' ← updateArgs fuel d more;
      Ok (elem' :: more')
  end.

(** [paramsKeysToLower] returns the context and the rewritten node. The
    recursion through sub-templates need not end; [fuel] bounds its depth
    and the iterations of each resolution loop. *)
Fixpoint paramsKeysToLower (fuel : nat) (c : templateContext) (n : Node)
  : outcome (templateContext * Node) :=
  match fuel with
  | O => OutOfFuel
  | S fuel =>
      match n with
      | ListNode Nodes =>
          '(c, Nodes') ← walkNodes (paramsKeysToLower fuel) c Nodes;
          Ok (c, ListNode Nodes')
      | ActionNode Pipe =>
          '(c, Pipe') ← paramsKeysToLower fuel c Pipe;
          Ok (c, ActionNode Pipe')
      | IfNode Pipe List ElseList =>
          '(c, Pipe') ← paramsKeysToLower fuel c Pipe;
          '(c, List') ← paramsKeysToLower fuel c List;
          '(c, ElseList') ← paramsKeysToLower fuel c ElseList;
          Ok (c, IfNode Pipe' List' ElseList')
      | WithNode Pipe List ElseList =>
          '(c, Pipe') ← paramsKeysToLower fuel c Pipe;
          '(c, List') ← paramsKeysToLower fuel c List;
          '(c, ElseList') ← paramsKeysToLower fuel c ElseList;
          Ok (c, WithNode Pipe' List' ElseList')
      | RangeNode Pipe List ElseList =>
          '(c, Pipe') ← paramsKeysToLower fuel c Pipe;
          '(c, List') ← paramsKeysToLower fuel c List;
          '(c, ElseList') ← paramsKeysToLower fuel c ElseList;
          Ok (c, RangeNode Pipe' List' ElseList')
      | TemplateNode Name =>
          match templ c !! Name with
          | Some root =>
              '(c, root') ← paramsKeysToLower fuel c root;
              Ok (mkTemplateContext (decl_ c) (<[Name := root']> (templ c)),
                  n)
          | None => Ok (c, n)
          end
      | PipeNode Decl Cmds =>
          d ← recordDecls (decl_ c) 0 Decl Cmds;
          let c := mkTemplateContext d (templ c) in
          '(c, Cmds') ← walkNodes (paramsKeysToLower fuel) c Cmds;
          Ok (c, PipeNode Decl Cmds')
      | CommandNode Args =>
          Args' ← updateArgs fuel (decl_ c) Args;
          Ok (c, CommandNode Args')
      | _ => Ok (c, n)
      end
  end.

(** A [*template.Template]: its name and the set of templates it belongs
    to, each name bound to the root of its parsed tree. Its own [Tree] is
    the tree bound to its name in the set ([None] for a nil [Tree]), so
    that rewriting the tree rewrites what [Lookup] finds under the name. *)
Record Template : Type := mkTemplate {
  name : string;
  common : gmap string Node;
}.

Definition Tree (t : Template) : option Node := common t !! name t.

Definition newTemplateContext (t : Template) : templateContext :=
  mkTemplateContext ∅ (common t).

(** Returns the error, if any, and the template after the pass. *)
Definition applyTemplateTransformers (fuel : nat) (t : option Template)
  : outcome (option string * option Template) :=
  match t with
  | None => Ok (Some "expected template, but none provided", None)
  | Some t =>
      match Tree t with
      | None => Ok (Some "expected template, but none provided", Some t)
      | Some root =>
          let c := newTemplateContext t in
          '(c, root') ← paramsKeysToLower fuel c root;
          Ok (None, Some (mkTemplate (name t) (<[name t := root']> (templ c))))
      end
  end.

End tpl.


(* ===================================================================== *)
(** ** The build driver ([Site], the second file of package [hugolib])   *)
(* ===================================================================== *)

Module site.

Record Config : Type := mkConfig {
  BaseUrl : string;
  Title : string;
  ContentDir : string;
  LayoutDir : string;
  PublishDir : string;
  BuildDrafts : bool;
  UglyUrls : bool;
  Verbose : bool;
  (** [Indexes map[string]string], singular to plural, in the order in
      which [range] visits it. *)
  Indexes_ : list (string * string);
}.

(** The value of a front matter parameter, an [interface{}]. *)
Inductive ParamVal : Type :=
| ParamNil
| ParamStrings (vals : list string)
| ParamOther.

(** What lies outside this file: the file system, the template engine
    and the helpers declared elsewhere in the package. *)
Class External : Type := {
  (** [*template.Template] *)
  Template : Type;
  (** [OrderedIndexList] and [IndexList.BuildOrderedIndexList] *)
  OrderedIndexList : Type;
  (** [Config.GetAbsPath] *)
  GetAbsPath : Config -> string -> string;
  (** [dirExists], the boolean it returns *)
  dirExists : string -> bool;
  (** The entries [filepath.Walk] hands to the walker below a directory,
      each with [fi.IsDir()]. *)
  walk : string -> list (string * bool);
  (** The templates [prepTemplates] parses below the layout directory;
      [None] when [template.Must] panics. *)
  parseLayouts : Config -> option Template;
  (** [t.Lookup(name) != nil] *)
  Lookup : Template -> string -> bool;
  Urlize : string -> string;
  MakePermalink : string -> string -> string;
  replaceExtension : string -> string -> string;
  fileExt : string -> string * string;
}.

Section Site.
Context `{!External}.

Record SiteInfo : Type := mkSiteInfo {
  Info_BaseUrl : string;
  Info_Indexes : option OrderedIndexList;
  Info_LastChange : Z;
  Info_Title : string;
  Info_Config : option Config;
}.

(** A page, with the fields and methods this file uses. [GetParam],
    [GetSection] and [Layout] hold what the methods return; [Next] and
    [Prev] point into [Site.Pages] by position. *)
Record Page : Type := mkPage {
  FileName : string;
  Description : string;
  Draft : bool;
  Date : Z;
  Content : string;
  RenderedContent : string;
  OutFile : string;
  Slug : string;
  Url : string;
  Extension : string;
  Section_ : string;
  GetParam : string -> ParamVal;
  GetSection : string;
  Layout : string;
  Page_Site : option SiteInfo;
  Page_Tmpl : option Template;
  Next : option nat;
  Prev : option nat;
}.

Definition Pages : Type := list Page.

(** [type Index map[string]Pages] and [type IndexList map[string]Index] *)
Abbreviation Index := (gmap string (list Page)).
Abbreviation IndexList := (gmap string (gmap string (list Page))).

(** Modelled from the spec: [Index.Add] is declared in another file; the
    spec has the build "populate taxonomy and section groupings", so
    [Add] puts the page at the end of the group of its key. *)
Definition Index_Add (key : string) (p : Page) (x : Index) : Index :=
  <[key := default [] (x !! key) ++ [p]]> x.

(** A value stored in [Node.Data]. *)
Inductive DataVal : Type :=
| DataPages (pages : Pages)
| DataString (s : string).

Record Node : Type := mkNode {
  Node_Url : string;
  Node_Permalink : string;
  Node_RSSlink : string;
  Node_Title : string;
  Node_Date : Z;
  Node_Data : gmap string DataVal;
  Node_Site : SiteInfo;
}.

(** The [Site]; its map of shortcodes, set once and not read in this
    file, is left out. *)
Record Site : Type := mkSite {
  c : Config;
  Pages_ : Pages;
  Tmpl : option Template;
  Indexes : IndexList;
  Files : list string;
  Directories : list string;
  Sections : Index;
  Info : SiteInfo;
  timer : list string;
}.

(** What a build does to the outside: a template executed on some data,
    or a file written below the publish directory. *)
Inductive event : Type :=
| Executed (layout : string) (data : Node + Page)
| Written (path : string) (content : string).

Class Engine : Type := {
  (** [s.Tmpl.ExecuteTemplate(buffer, layout, d)]: the bytes written to
      the buffer and the error. *)
  ExecuteTemplate : Template -> string -> Node + Page -> string * option string;
  (** [ShortcodesHandle(content, page, tmpl)] *)
  ShortcodesHandle : string -> Page -> option Template -> string;
  (** [NewPage(fileName)] *)
  NewPage : string -> Page;
  (** [Pages.Sort], as the sorted sequence *)
  Sort : Pages -> Pages;
  BuildOrderedIndexList : IndexList -> OrderedIndexList;
  (** The render phases that the properties below do not look into;
      [Render] drops the errors they return. *)
  RenderIndexes : Site * list event -> outcome (Site * list event);
  RenderIndexesIndexes : Site * list event -> outcome (Site * list event);
  RenderLists : Site * list event -> outcome (Site * list event);
}.

Context `{!Engine}.

Definition slash : string := "/".

Definition set_Pages (s : Site) (v : Pages) : Site :=
  mkSite (c s) v (Tmpl s) (Indexes s) (Files s) (Directories s)
         (Sections s) (Info s) (timer s).
Definition set_Tmpl (s : Site) (v : option Template) : Site :=
  mkSite (c s) (Pages_ s) v (Indexes s) (Files s) (Directories s)
         (Sections s) (Info s) (timer s).
Definition set_Indexes (s : Site) (v : IndexList) : Site :=
  mkSite (c s) (Pages_ s) (Tmpl s) v (Files s) (Directories s)
         (Sections s) (Info s) (timer s).
Definition set_Files (s : Site) (v : list string) : Site :=
  mkSite (c s) (Pages_ s) (Tmpl s) (Indexes s) v (Directories s)
         (Sections s) (Info s) (timer s).
Definition set_Directories (s : Site) (v : list string) : Site :=
  mkSite (c s) (Pages_ s) (Tmpl s) (Indexes s) (Files s) v
         (Sections s) (Info s) (timer s).
Definition set_Sections (s : Site) (v : Index) : Site :=
  mkSite (c s) (Pages_ s) (Tmpl s) (Indexes s) (Files s) (Directories s)
         v (Info s) (timer s).
Definition set_Info (s : Site) (v : SiteInfo) : Site :=
  mkSite (c s) (Pages_ s) (Tmpl s) (Indexes s) (Files s) (Directories s)
         (Sections s) v (timer s).

(** [site.timer.Step(name)] *)
Definition Step (name : string) (s : Site) : Site :=
  mkSite (c s) (Pages_ s) (Tmpl s) (Indexes s) (Files s) (Directories s)
         (Sections s) (Info s) (timer s ++ [name]).

(** [FatalErr] ends the process. Creating the publish directory changes
    nothing that the build reads later. *)
Definition checkDirectories (s : Site) : outcome unit :=
  if negb (dirExists (GetAbsPath (c s) (LayoutDir (c s)))) then Panic
  else if negb (dirExists (GetAbsPath (c s) (ContentDir (c s)))) then Panic
  else Ok tt.

Definition initialize (s : Site) : outcome Site :=
  _ ← checkDirectories s;
  let s :=
    fold_left
      (fun site '(path, isDir) =>
         if isDir : bool
         then set_Directories site (Directories site ++ [path])
         else set_Files site (Files site ++ [path]))
      (walk (GetAbsPath (c s) (ContentDir (c s)))) s in
  Ok (set_Info s
        (mkSiteInfo (BaseUrl (c s)) None 0 (Title (c s)) (Some (c s)))).

Definition prepTemplates (s : Site) : outcome Site :=
  match parseLayouts (c s) with
  | Some templates => Ok (set_Tmpl s (Some templates))
  | None => Panic
  end.

Definition set_OutFile (p : Page) (v : string) : Page :=
  mkPage (FileName p) (Description p) (Draft p) (Date p) (Content p)
    (RenderedContent p) v (Slug p) (Url p) (Extension p) (Section_ p)
    (GetParam p) (GetSection p) (Layout p) (Page_Site p) (Page_Tmpl p)
    (Next p) (Prev p).
Definition set_Content (p : Page) (v : string) : Page :=
  mkPage (FileName p) (Description p) (Draft p) (Date p) v
    (RenderedContent p) (OutFile p) (Slug p) (Url p) (Extension p)
    (Section_ p) (GetParam p) (GetSection p) (Layout p) (Page_Site p)
    (Page_Tmpl p) (Next p) (Prev p).
Definition set_RenderedContent (p : Page) (v : string) : Page :=
  mkPage (FileName p) (Description p) (Draft p) (Date p) (Content p)
    v (OutFile p) (Slug p) (Url p) (Extension p) (Section_ p)
    (GetParam p) (GetSection p) (Layout p) (Page_Site p) (Page_Tmpl p)
    (Next p) (Prev p).
Definition set_Site_Tmpl (p : Page) (i : option SiteInfo)
  (t : option Template) : Page :=
  mkPage (FileName p) (Description p) (Draft p) (Date p) (Content p)
    (RenderedContent p) (OutFile p) (Slug p) (Url p) (Extension p)
    (Section_ p) (GetParam p) (GetSection p) (Layout p) i t
    (Next p) (Prev p).
Definition set_Next (p : Page) (v : option nat) : Page :=
  mkPage (FileName p) (Description p) (Draft p) (Date p) (Content p)
    (RenderedContent p) (OutFile p) (Slug p) (Url p) (Extension p)
    (Section_ p) (GetParam p) (GetSection p) (Layout p) (Page_Site p)
    (Page_Tmpl p) v (Prev p).
Definition set_Prev (p : Page) (v : option nat) : Page :=
  mkPage (FileName p) (Description p) (Draft p) (Date p) (Content p)
    (RenderedContent p) (OutFile p) (Slug p) (Url p) (Extension p)
    (Section_ p) (GetParam p) (GetSection p) (Layout p) (Page_Site p)
    (Page_Tmpl p) (Next p) v.


Definition setOutFile (s : Site) (p : Page) : Page :=
  if (0 <? String.length (strings.TrimSpace (Slug p)))%nat then
    if UglyUrls (c s)
    then set_OutFile p
           (strings.TrimSpace (Slug p ++ "." ++ Extension p)%string)
    else set_OutFile p
           (strings.TrimSpace (Slug p ++ slash ++ "index.html")%string)
  else if (2 <? String.length (strings.TrimSpace (Url p)))%nat then
    set_OutFile p (strings.TrimSpace (Url p))
  else
    let t := snd (path.Split (FileName p)) in
    if UglyUrls (c s)
    then set_OutFile p (replaceExtension (strings.TrimSpace t) (Extension p))
    else
      let file := fst (fileExt (strings.TrimSpace t)) in
      set_OutFile p (file ++ slash ++ "index." ++ Extension p)%string.

Definition CreatePages (s : Site) : Site :=
  let s :=
    fold_left
      (fun s fileName =>
         let page := NewPage fileName in
         let page := set_Site_Tmpl page (Some (Info s)) (Tmpl s) in
         let page := setOutFile s page in
         if BuildDrafts (c s) || negb (Draft page)
         then set_Pages s (Pages_ s ++ [page])
         else s)
      (Files s) s in
  set_Pages s (Sort (Pages_ s)).

Definition setupPrevNext (s : Site) : Site :=
  let n := length (Pages_ s) in
  set_Pages s
    (imap
       (fun i p =>
          let p := if (i <? n - 1)%nat then set_Next p (Some (i + 1)%nat)
                   else p in
          if (0 <? i)%nat then set_Prev p (Some (i - 1)%nat) else p)
       (Pages_ s)).

(** The [for _, idx := range vals.([]string)] loop; the type assertion
    panics on a value that is no [[]string]. *)
Definition addToIndex (vals : ParamVal) (p : Page) (x : Index)
  : outcome Index :=
  match vals with
  | ParamNil => Ok x
  | ParamStrings idxs => Ok (fold_left (fun x idx => Index_Add idx p x) idxs x)
  | ParamOther => Panic
  end.

Fixpoint indexPages (plural : string) (pages : Pages) (x : Index)
  : outcome Index :=
  match pages with
  | [] => Ok x
  | p :: more =>
      x ← addToIndex (GetParam p plural) p x;
      indexPages plural more x
  end.

Fixpoint buildIndexes (plurals : list string) (pages : Pages)
  (indexes : IndexList) : outcome IndexList :=
  match plurals with
  | [] => Ok indexes
  | plural :: more =>
      x ← indexPages plural pages ∅;
      buildIndexes more pages (<[plural := Sort <$> x]> indexes)
  end.

Definition noPagesError (s : Site) : string :=
  ("Unable to build site metadata, no pages found in directory "
     ++ ContentDir (c s))%string.

Definition BuildSiteMeta (s : Site) : outcome (Site * option string) :=
  let s := set_Indexes s ∅ in
  let s := set_Sections s ∅ in
  indexes ← buildIndexes (map snd (Indexes_ (c s))) (Pages_ s) (Indexes s);
  let s := set_Indexes s indexes in
  let s :=
    set_Sections s
      (fold_left (fun x p => Index_Add (GetSection p) p x) (Pages_ s)
                 (Sections s)) in
  let s := set_Sections s (Sort <$> Sections s) in
  let s :=
    set_Info s
      (mkSiteInfo (Info_BaseUrl (Info s))
         (Some (BuildOrderedIndexList (Indexes s)))
         (Info_LastChange (Info s)) (Info_Title (Info s))
         (Info_Config (Info s))) in
  match Pages_ s with
  | [] => Ok (s, Some (noPagesError s))
  | p0 :: _ =>
      let s :=
        set_Info s
          (mkSiteInfo (Info_BaseUrl (Info s)) (Info_Indexes (Info s))
             (Date p0) (Info_Title (Info s)) (Info_Config (Info s))) in
      let s :=
        set_Pages s
          (map (fun p => set_Site_Tmpl p (Some (Info s)) (Page_Tmpl p))
               (Pages_ s)) in
      Ok (s, None)
  end.

Definition Process (s : Site) : outcome (Site * option string) :=
  s ← initialize s;
  s ← prepTemplates s;
  let s := Step "initialize & template prep" s in
  let s := CreatePages s in
  let s := setupPrevNext s in
  let s := Step "import pages" s in
  '(s, err) ← BuildSiteMeta s;
  match err with
  | Some e => Ok (s, Some e)
  | None => Ok (Step "build indexes" s, None)
  end.

Definition ProcessShortcodes (s : Site) : Site :=
  set_Pages s
    (map (fun p => set_Content p (ShortcodesHandle (Content p) p (Tmpl s)))
         (Pages_ s)).

(** The one-byte string holding a double quote. *)
Definition dq : string := String (ascii_of_nat 34) EmptyString.

Definition AbsUrlify (s : Site) : Site :=
  let base := BaseUrl (c s) in
  set_Pages s
    (map
       (fun p =>
          let content := Content p in
          let content :=
            strings.ReplaceAll content (" src=" ++ dq ++ "/")%string
                               (" src=" ++ dq ++ base)%string in
          let content :=
            strings.ReplaceAll content " src='/" (" src='" ++ base)%string in
          let content :=
            strings.ReplaceAll content " href='/" (" href='" ++ base)%string in
          let content :=
            strings.ReplaceAll content (" href=" ++ dq ++ "/")%string
                               (" href=" ++ dq ++ base)%string in
          let baseWithoutTrailingSlash := strings.TrimRight base "/" in
          let content :=
            strings.ReplaceAll content
              (baseWithoutTrailingSlash ++ "//")%string
              (baseWithoutTrailingSlash ++ "/")%string in
          set_Content p content)
       (Pages_ s)).

(** The state of a build: the site and what it did to the outside. *)
Definition state : Type := Site * list event.

(** [RenderThing] returns the buffer and the error; a nil [s.Tmpl]
    panics. *)
Definition RenderThing (d : Node + Page) (layout : string) (st : state)
  : outcome (string * option string * state) :=
  let '(s, evs) := st in
  match Tmpl s with
  | None => Panic
  | Some tmpl =>
      let '(buffer, err) := ExecuteTemplate tmpl layout d in
      Ok (buffer, err, (s, evs ++ [Executed layout d]))
  end.

Definition WritePublic (path content : string) (st : state) : state :=
  let '(s, evs) := st in (s, evs ++ [Written path content]).

Definition NewNode (s : Site) : Node :=
  mkNode "" "" "" "" 0 ∅ (Info s).

Definition NewXMLBuffer : string :=
  ("<?xml version=" ++ dq ++ "1.0" ++ dq ++ " encoding=" ++ dq ++ "utf-8"
     ++ dq ++ " standalone=" ++ dq ++ "yes" ++ dq ++ " ?>"
     ++ String (ascii_of_nat 10) EmptyString)%string.

(** The loop of [RenderPages] from position [i] on. *)
Fixpoint renderPagesFrom (i : nat) (todo : Pages) (st : state)
  : outcome (option string * state) :=
  match todo with
  | [] => Ok (None, st)
  | p :: more =>
      '(content, err, st) ← RenderThing (inr p) (Layout p) st;
      match err with
      | Some e => Ok (Some e, st)
      | None =>
          let '(s, evs) := st in
          let s :=
            set_Pages s
              (alter (fun q => set_RenderedContent q content) i (Pages_ s)) in
          renderPagesFrom (S i) more (s, evs)
      end
  end.

Definition RenderPages (st : state) : outcome (option string * state) :=
  renderPagesFrom 0 (Pages_ (fst st)) st.

Definition WritePages (st : state) : state :=
  fold_left
    (fun st p =>
       WritePublic (Section_ p ++ slash ++ OutFile p)%string
                   (RenderedContent p) st)
    (Pages_ (fst st)) st.

Definition RenderHomePage (st : state) : outcome (option string * state) :=
  let s := fst st in
  let n := NewNode s in
  let Title' := Info_Title (Node_Site n) in
  let Url' := Urlize (Info_BaseUrl (Node_Site n)) in
  let RSSlink' := MakePermalink (Info_BaseUrl (Node_Site n)) "index.xml" in
  let Permalink' := Info_BaseUrl (Node_Site n) in
  match Pages_ s with
  | [] => Panic
  | p0 :: _ =>
      let Date' := Date p0 in
      let Data' :=
        if (length (Pages_ s) <? 9)%nat
        then <["Pages" := DataPages (Pages_ s)]> (Node_Data n)
        else <["Pages" := DataPages (take 9 (Pages_ s))]> (Node_Data n) in
      let n :=
        mkNode Url' Permalink' RSSlink' Title' Date' Data' (Node_Site n) in
      '(x, err, st) ← RenderThing (inl n) "index.html" st;
      match err with
      | Some e => Ok (Some e, st)
      | None =>
          let st := WritePublic "index.html" x st in
          match Tmpl (fst st) with
          | None => Panic
          | Some tmpl =>
              if Lookup tmpl "rss.xml" then
                let n :=
                  mkNode (Urlize "index.xml")
                    (Info_BaseUrl (Node_Site n) ++ "index.xml")%string
                    (Node_RSSlink n) "Recent Content" (Node_Date n)
                    (Node_Data n) (Node_Site n) in
                let '(y, _) := ExecuteTemplate tmpl "rss.xml" (inl n) in
                let st :=
                  (fst st, snd st ++ [Executed "rss.xml" (inl n)]) in
                let st :=
                  WritePublic "index.xml" (NewXMLBuffer ++ y)%string st in
                Ok (None, st)
              else Ok (None, st)
          end
      end
  end.

Definition stepState (name : string) (st : state) : state :=
  (Step name (fst st), snd st).

Definition Render (st : state) : outcome (option string * state) :=
  let st := (ProcessShortcodes (fst st), snd st) in
  let st := stepState "render shortcodes" st in
  let st := (AbsUrlify (fst st), snd st) in
  let st := stepState "absolute URLify" st in
  st ← RenderIndexes st;
  st ← RenderIndexesIndexes st;
  let st := stepState "render and write indexes" st in
  st ← RenderLists st;
  let st := stepState "render and write lists" st in
  '(err, st) ← RenderPages st;
  match err with
  | Some e => Ok (Some e, st)
  | None =>
      let st := stepState "render pages" st in
      '(_, st) ← RenderHomePage st;
      let st := stepState "render and write homepage" st in
      Ok (None, st)
  end.

Definition Write (st : state) : state :=
  let st := WritePages st in
  stepState "write pages" st.

Definition Build (st : state) : outcome (option string * state) :=
  '(s, err) ← Process (fst st);
  let st := (s, snd st) in
  match err with
  | Some e => Ok (Some e, st)
  | None =>
      '(err, st) ← Render st;
      match err with
      | Some e => Ok (Some e, st)
      | None => Ok (None, Write st)
      end
  end.

End Site.
End site.


(* ===================================================================== *)
(** ** Definitions used to state the properties                          *)
(* ===================================================================== *)

Module spec.

(** A sequence of insertions into the reference index, oldest first. *)
Definition addAll (ins : list (string * hugolib.Page))
  (index : gmap string hugolib.Page) : gmap string hugolib.Page :=
  fold_left (fun index '(ref, p) => hugolib.add ref p index) ins index.

(** [index] is [index0] after some sequence of insertions. *)
Definition insertions_from (index0 index : gmap string hugolib.Page) : Prop :=
  ∃ ins, index = addAll ins index0.

(** [key] is bound to [p] or, after a conflict, to the ambiguity flag. *)
Definition claimed (index : gmap string hugolib.Page) (key : string)
  (p : hugolib.Page) : Prop :=
  index !! key = Some p ∨ index !! key = Some hugolib.ambiguityFlag.

(** What an insertion of [p] makes of the binding [existing] of its key. *)
Definition merge (existing : option hugolib.Page) (p : hugolib.Page)
  : hugolib.Page :=
  match existing with
  | None => p
  | Some e =>
      if bool_decide (e ≠ hugolib.ambiguityFlag) && bool_decide (e ≠ p)
      then hugolib.ambiguityFlag
      else e
  end.

(** The pages inserted under [key], oldest first. *)
Definition under (key : string) (ins : list (string * hugolib.Page))
  : list hugolib.Page :=
  map snd (List.filter (fun x => String.eqb (fst x) key) ins).

(** What a key resolves to when the pages [ps] were inserted under it:
    nothing without pages, the page when all are the same page, the
    ambiguity flag otherwise. *)
Definition resolution (ps : list hugolib.Page) : option hugolib.Page :=
  match ps with
  | [] => None
  | p :: more =>
      if forallb (fun q => bool_decide (q = p)) more then Some p
      else Some hugolib.ambiguityFlag
  end.

(** The keys of the four lookup strategies, in the order of the
    specification: the reference itself when it starts with a slash; with a
    context page, the context's section path joined with the reference; the
    reference with a slash put in front when it has none; the reference
    without its leading slash. *)
Definition lookupOrder (context : option hugolib.Page) (ref : string)
  : list string :=
  (if strings.HasPrefix ref "/" then [ref] else [])
  ++ match context with
     | Some ctx =>
         [path.Join ["/"; strings.Join (hugolib.sections ctx) "/"; ref]]
     | None => []
     end
  ++ (if strings.HasPrefix ref "/" then [] else [("/" ++ ref)%string])
  ++ [strings.TrimPrefix ref "/"].

(** The page of the first key whose lookup gives a page and no error. *)
Fixpoint firstHit (c : hugolib.PageCollections) (keys : list string)
  : option hugolib.Page :=
  match keys with
  | [] => None
  | key :: more =>
      match hugolib.getFromCache c key with
      | (Some p, None) => Some p
      | _ => firstHit c more
      end
  end.

(** A candidate is internal when its name starts with [_internal/]. *)
Definition isInternal (t : string) : bool := strings.HasPrefix t "_internal/".

(** The three bands of the themed candidate list: the candidates that are
    not internal, the same candidates with [theme/] in front, the internal
    candidates; each band in the order of the original list. *)
Definition themeBands (layouts : list string) : list string :=
  List.filter (fun t => negb (isInternal t)) layouts
  ++ map (fun t => ("theme/" ++ t)%string)
         (List.filter (fun t => negb (isInternal t)) layouts)
  ++ List.filter isInternal layouts.

(** The non-empty prefixes of a path, shortest first. *)
Fixpoint prefixes (t : list string) : list (list string) :=
  match t with
  | [] => []
  | x :: t' => [x] :: map (cons x) (prefixes t')
  end.

(** The levels of a type path, from the most specific (the whole path) to
    the least specific (its first element). *)
Definition levels (t : list string) : list (list string) := rev (prefixes t).

(** The two candidates of one level: the variant with the format name,
    then the plain variant. *)
Definition levelLayouts (layout name suffix : string) (search : list string)
  : list string :=
  [ output.sprintf4 (strings.ToLower (path.Join search)) layout name suffix;
    output.sprintf3 (strings.ToLower (path.Join search)) layout suffix ].

(** The cascade of kind "page" as the specification describes it. *)
Definition pageCascade (types layout : string) (tp : output.Type_)
  : list string :=
  let layout := if String.eqb layout "" then "single" else layout in
  let suffix := output.Suffix (output.MediaType tp) in
  let name := strings.ToLower (output.Name tp) in
  (if String.eqb types "" then []
   else flat_map (levelLayouts layout name suffix)
                 (levels (strings.Split types "/")))
  ++ [ output.sprintf4 "_default" layout name suffix;
       output.sprintf3 "_default" layout suffix ].

(** The segments that [indexOfFirstRealIdentAfterWords] passes over: the
    empty string, a [$]-variable, one of the words. *)
Definition passedOver (words : list string) (ident : string) : Prop :=
  ident = "" ∨ tpl.startsWithDollar ident = true ∨ ident ∈ words.









(** A tree with the segments of all its field and variable identifiers in
    lower case. *)
Fixpoint lowered (n : tpl.Node) : tpl.Node :=
  match n with
  | tpl.ListNode Nodes => tpl.ListNode (map lowered Nodes)
  | tpl.ActionNode Pipe => tpl.ActionNode (lowered Pipe)
  | tpl.IfNode Pipe List ElseList =>
      tpl.IfNode (lowered Pipe) (lowered List) (lowered ElseList)
  | tpl.WithNode Pipe List ElseList =>
      tpl.WithNode (lowered Pipe) (lowered List) (lowered ElseList)
  | tpl.RangeNode Pipe List ElseList =>
      tpl.RangeNode (lowered Pipe) (lowered List) (lowered ElseList)
  | tpl.PipeNode Decl Cmds => tpl.PipeNode Decl (map lowered Cmds)
  | tpl.CommandNode Args => tpl.CommandNode (map lowered Args)
  | tpl.FieldNode Ident => tpl.FieldNode (map strings.ToLower Ident)
  | tpl.VariableNode Ident => tpl.VariableNode (map strings.ToLower Ident)
  | _ => n
  end.

(** Two sets of templates hold the same trees up to the case of the
    identifiers. *)
Definition sameTemplates (t1 t2 : gmap string tpl.Node) : Prop :=
  ∀ name, lowered <$> (t1 !! name) = lowered <$> (t2 !! name).

(** What a walk keeps: the node and the templates, up to case. *)
Definition keepsCase
  (walk : tpl.templateContext → tpl.Node →
          outcome (tpl.templateContext * tpl.Node)) : Prop :=
  ∀ c n c' n',
    walk c n = Ok (c', n') →
    lowered n' = lowered n
    ∧ sameTemplates (tpl.templ c') (tpl.templ c).

(** The kinds for which [For] has a table. *)
Definition knownKinds : list string :=
  ["home"; "section"; "taxonomy"; "taxonomyTerm"; "page"].

(** The site as [Process] hands it to [BuildSiteMeta]: after [initialize],
    [prepTemplates], [CreatePages] (page materialization) and
    [setupPrevNext]. *)
Definition materialized `{!site.External} `{!site.Engine} (s : site.Site)
  : outcome site.Site :=
  s ← site.initialize s;
  s ← site.prepTemplates s;
  let s := site.Step "initialize & template prep" s in
  let s := site.CreatePages s in
  let s := site.setupPrevNext s in
  Ok (site.Step "import pages" s).

(** The page [CreatePages] makes of a content file. *)
Definition imported `{!site.External} `{!site.Engine} (s : site.Site)
  (fileName : string) : site.Page :=
  site.setOutFile s
    (site.set_Site_Tmpl (site.NewPage fileName) (Some (site.Info s))
       (site.Tmpl s)).

(** Whether [CreatePages] keeps a page. *)
Definition kept `{!site.External} (s : site.Site) (p : site.Page) : bool :=
  site.BuildDrafts (site.c s) || negb (site.Draft p).




Definition writes `{!site.External} (pages : site.Pages) : list site.event :=
  map (fun p =>
         site.Written (site.Section_ p ++ "/" ++ site.OutFile p)%string
                      (site.RenderedContent p))
      pages.

End spec.

(* ===================================================================== *)
(** ** Concrete sites, pages and templates                               *)
(* ===================================================================== *)

Module examples.
Import hugolib.

Definition pageA : Page :=
  mkPage 2 "page" "A" ["blog"] (Some 1%positive) "en" "/blog/a.md" "a.md" "a".
Definition pageB : Page :=
  mkPage 3 "page" "B" ["docs"] (Some 1%positive) "en" "/docs/a.md" "a.md" "a".
Definition sectionBlog : Page :=
  mkPage 4 "section" "Blog" ["blog"] (Some 1%positive) "en"
         "/blog/_index.md" "_index.md" "_index".

(** The pages of the site below before its caches are refreshed. *)
Definition rawCollections : PageCollections :=
  mkPageCollections [pageA; pageB; sectionBlog] [pageA; pageB; sectionBlog]
    [] [] [] [pageA; pageB; sectionBlog] []
    (NewLazy (fun _ => (∅, None))).

(** A site with two regular pages that share their file name, and one
    section page; its caches and index are those of [refreshPageCaches]. *)
Definition collections : PageCollections :=
  refreshPageCaches
    (mkPageCollections [pageA; pageB; sectionBlog] [pageA; pageB; sectionBlog]
       [] [] [] [pageA; pageB; sectionBlog] []
       (NewLazy (fun _ => (∅, None)))).

(** Collaborators for a build: every directory exists, the content
    directory holds the files of [files], templates echo the name of the
    layout, and the render phases left open do nothing. *)
Definition demoExternal (files : list string) : site.External :=
  {| site.Template := unit;
     site.OrderedIndexList := unit;
     site.GetAbsPath := fun _ dir => dir;
     site.dirExists := fun _ => true;
     site.walk := fun _ => map (fun f => (f, false)) files;
     site.parseLayouts := fun _ => Some tt;
     site.Lookup := fun _ _ => false;
     site.Urlize := fun u => u;
     site.MakePermalink := fun base p => (base ++ p)%string;
     site.replaceExtension := fun f ext => (f ++ "." ++ ext)%string;
     site.fileExt := fun f => (f, "") |}.

Definition demoPage (files : list string) (fileName : string)
  : @site.Page (demoExternal files) :=
  site.mkPage fileName "" false 0 "" "" "" "" "" "html" "post"
    (fun _ => site.ParamNil) "post" "post/single.html" None None None None.

Definition demoEngine (files : list string)
  : @site.Engine (demoExternal files) :=
  {| site.ExecuteTemplate := fun _ layout _ => (layout, None);
     site.ShortcodesHandle := fun content _ _ => content;
     site.NewPage := demoPage files;
     site.Sort := fun pages => pages;
     site.BuildOrderedIndexList := fun _ => tt;
     site.RenderIndexes := Ok;
     site.RenderIndexesIndexes := Ok;
     site.RenderLists := Ok |}.

Definition demoConfig : site.Config :=
  site.mkConfig "http://example.org/" "Demo" "content" "layouts" "public"
    false false false [("tag", "tags")].

(** [NewSite(config)] before a build. *)
Definition demoSite (files : list string) : @site.Site (demoExternal files) :=
  site.mkSite demoConfig [] None ∅ [] [] ∅
    (site.mkSiteInfo "" None 0 "" None) [].

Definition tenFiles : list string :=
  ["a"; "b"; "c"; "d"; "e"; "f"; "g"; "h"; "i"; "j"].

(** The site without content files, as it reaches [BuildSiteMeta]. *)
Definition emptyMaterialized : @site.Site (demoExternal []) :=
  match @spec.materialized (demoExternal []) (demoEngine []) (demoSite []) with
  | Ok s => s
  | _ => demoSite []
  end.

(** A site of ten pages with its templates parsed. *)
Definition tenPageSite : @site.Site (demoExternal tenFiles) :=
  site.mkSite demoConfig (map (demoPage tenFiles) tenFiles) (Some tt) ∅ [] []
    ∅ (site.mkSiteInfo "http://example.org/" None 0 "Demo" None) [].

(** Collaborators of a second site: a file whose name starts with
    [draft] is a draft, the page of [odd] has parameters that are no list
    of strings, and the template of the page of [broken] fails. *)
Definition mixedPage (files : list string) (fileName : string)
  : @site.Page (demoExternal files) :=
  site.mkPage fileName "" (String.prefix "draft" fileName) 0 "" "" "" "" ""
    "html" "post"
    (fun _ => if String.eqb fileName "odd" then site.ParamOther
              else site.ParamNil)
    "post" "post/single.html" None None None None.

Definition mixedEngine (files : list string)
  : @site.Engine (demoExternal files) :=
  {| site.ExecuteTemplate := fun _ layout d =>
       match d with
       | inr p =>
           if String.eqb (site.FileName p) "broken"
           then ("", Some "execute: broken")
           else (site.FileName p, None)
       | inl _ => (layout, None)
       end;
     site.ShortcodesHandle := fun content _ _ => content;
     site.NewPage := mixedPage files;
     site.Sort := fun pages => pages;
     site.BuildOrderedIndexList := fun _ => tt;
     site.RenderIndexes := Ok;
     site.RenderIndexesIndexes := Ok;
     site.RenderLists := Ok |}.

(** A site with the pages of [files] and its templates parsed. *)
Definition mixedSite (files : list string)
  : @site.Site (demoExternal files) :=
  site.mkSite demoConfig (map (mixedPage files) files) (Some tt) ∅ files []
    ∅ (site.mkSiteInfo "http://example.org/" None 0 "Demo" None) [].

(** The state in which the build of two content files ends. *)
Definition builtTwoPages : @site.state (demoExternal ["a"; "b"]) :=
  match @site.Build (demoExternal ["a"; "b"]) (demoEngine ["a"; "b"])
          (demoSite ["a"; "b"], [])
  with
  | Ok (_, st) => st
  | _ => (demoSite ["a"; "b"], [])
  end.

(** The parse tree of [{{ $p := .Params }}{{ $p.MyKey }}]: two actions,
    the first a pipeline declaring [$p] with the command [.Params], the
    second a pipeline with the command [$p.MyKey]. *)
Definition paramsAlias : tpl.Node :=
  tpl.ListNode
    [ tpl.ActionNode
        (tpl.PipeNode [["$p"]] [tpl.CommandNode [tpl.FieldNode ["Params"]]]);
      tpl.ActionNode
        (tpl.PipeNode []
           [tpl.CommandNode [tpl.VariableNode ["$p"; "MyKey"]]]) ].

(** The same tree with [MyKey] in lower case. *)
Definition paramsAliasLowered : tpl.Node :=
  tpl.ListNode
    [ tpl.ActionNode
        (tpl.PipeNode [["$p"]] [tpl.CommandNode [tpl.FieldNode ["Params"]]]);
      tpl.ActionNode
        (tpl.PipeNode []
           [tpl.CommandNode [tpl.VariableNode ["$p"; "mykey"]]]) ].

End examples.

(* ===================================================================== *)
(** ** Properties of the reference index                                 *)
(* ===================================================================== *)

Section ReferenceIndex.
Import hugolib.

Implicit Types (index : gmap string Page) (p q : Page) (ref key : string).

Lemma add_lookup_other index ref key p :
  key ≠ ref → add ref p index !! key = index !! key.
Proof.
  intros Hne. unfold add.
  destruct (index !! ref) as [existing|]; [|by rewrite lookup_insert_ne].
  destruct (_ && _); [by rewrite lookup_insert_ne | done].
Qed.

Lemma add_lookup_absent index ref p :
  index !! ref = None → add ref p index !! ref = Some p.
Proof. intros H. unfold add. rewrite H. apply lookup_insert_eq. Qed.

Lemma add_lookup_same index ref p :
  index !! ref = Some p → add ref p index = index.
Proof.
  intros H. unfold add. rewrite H.
  rewrite (bool_decide_eq_false_2 (p ≠ p)); [|tauto].
  by rewrite andb_false_r.
Qed.

Lemma add_lookup_flag index ref p :
  index !! ref = Some ambiguityFlag → add ref p index = index.
Proof.
  intros H. unfold add. rewrite H.
  rewrite (bool_decide_eq_false_2 (ambiguityFlag ≠ ambiguityFlag)); [|tauto].
  done.
Qed.

Lemma add_lookup_conflict index ref p q :
  index !! ref = Some q → q ≠ ambiguityFlag → q ≠ p →
  add ref p index !! ref = Some ambiguityFlag.
Proof.
  intros H Hq Hne. unfold add. rewrite H.
  rewrite !bool_decide_eq_true_2 by done. apply lookup_insert_eq.
Qed.

Lemma add_keeps_flag index ref key p :
  index !! key = Some ambiguityFlag →
  add ref p index !! key = Some ambiguityFlag.
Proof.
  intros H. destruct (decide (key = ref)) as [->|Hne].
  - by rewrite add_lookup_flag.
  - by rewrite add_lookup_other.
Qed.

Lemma addAll_keeps_flag ins index key :
  index !! key = Some ambiguityFlag →
  spec.addAll ins index !! key = Some ambiguityFlag.
Proof.
  revert index. induction ins as [|[ref p] ins IH]; intros index H; [done|].
  cbn. apply IH. by apply add_keeps_flag.
Qed.

Lemma insertions_refl index : spec.insertions_from index index.
Proof. by exists []. Qed.

Lemma insertions_add index0 index ref p :
  spec.insertions_from index0 index → spec.insertions_from index0 (add ref p index).
Proof.
  intros [ins ->]. exists (ins ++ [(ref, p)]).
  unfold spec.addAll. by rewrite fold_left_app.
Qed.

Lemma insertions_fold (f : gmap string Page → Page → gmap string Page)
  (pages : Pages) index0 index :
  (∀ index p, spec.insertions_from index0 index → spec.insertions_from index0 (f index p)) →
  spec.insertions_from index0 index →
  spec.insertions_from index0 (fold_left f pages index).
Proof.
  intros Hf. revert index. induction pages as [|p pages IH]; intros index H.
  - done.
  - cbn. apply IH. by apply Hf.
Qed.

(** The index that the loader builds is the result of a sequence of
    insertions into the empty index. *)
Lemma indexLoader_insertions (s : option positive) (c : PageCollections) :
  spec.insertions_from ∅ (fst (indexLoader s c tt)).
Proof.
  unfold indexLoader. cbn [fst fold_left].
  apply insertions_fold.
  { intros index p H. unfold indexIndexPage. cbv zeta.
    apply insertions_add. by destruct (negb _); [apply insertions_add|]. }
  apply insertions_fold; [|apply insertions_fold; [|apply insertions_refl]];
    intros index p H; unfold indexRegularPage; cbv zeta;
    (destruct (_ && _); [|by apply insertions_add]);
    apply insertions_add;
    (destruct (String.eqb (TranslationBaseName p) "index");
     [do 2 apply insertions_add | apply insertions_add]);
    apply insertions_add;
    (destruct (negb _); [apply insertions_add|]);
    by apply insertions_add.
Qed.

(** C2. Ambiguity is monotone: a key bound to the ambiguity flag is still
    bound to it after any further sequence of insertions, under this or any
    other key; and inserting a page under a key bound to a different page
    (not the flag) binds the key to the flag. *)
Theorem add_ambiguity_monotone :
  (∀ ins index key,
      index !! key = Some ambiguityFlag →
      spec.addAll ins index !! key = Some ambiguityFlag)
  ∧ (∀ index ref p q,
      index !! ref = Some q → q ≠ ambiguityFlag → p ≠ q →
      add ref p index !! ref = Some ambiguityFlag).
Proof.
  split.
  - intros. by apply addAll_keeps_flag.
  - intros index ref p q H Hq Hne. by apply (add_lookup_conflict index ref p q).
Qed.

Lemma add_ambiguity_monotone_witness :
  (<["a.md" := ambiguityFlag]> ∅ : gmap string Page) !! "a.md"
    = Some ambiguityFlag
  ∧ spec.addAll [("a.md", examples.pageA); ("b", examples.pageB);
                 ("a.md", examples.pageB)]
      (<["a.md" := ambiguityFlag]> ∅) !! "a.md" = Some ambiguityFlag
  ∧ (<["a.md" := examples.pageA]> ∅ : gmap string Page) !! "a.md"
    = Some examples.pageA
  ∧ examples.pageA ≠ ambiguityFlag
  ∧ examples.pageB ≠ examples.pageA
  ∧ add "a.md" examples.pageB (<["a.md" := examples.pageA]> ∅) !! "a.md"
    = Some ambiguityFlag.
Proof.
  assert (H1 : (<["a.md" := ambiguityFlag]> ∅ : gmap string Page) !! "a.md"
               = Some ambiguityFlag) by reflexivity.
  assert (H2 : (<["a.md" := examples.pageA]> ∅ : gmap string Page) !! "a.md"
               = Some examples.pageA) by reflexivity.
  assert (H3 : examples.pageA ≠ ambiguityFlag) by discriminate.
  assert (H4 : examples.pageB ≠ examples.pageA) by discriminate.
  split; [exact H1|].
  split; [exact (proj1 add_ambiguity_monotone _ _ _ H1)|].
  split; [exact H2|]. split; [exact H3|]. split; [exact H4|].
  exact (proj2 add_ambiguity_monotone _ _ _ _ H2 H3 H4).
Defined.

(** C8. Inserting the same page under the same key a second time changes
    nothing: the index after the second insertion is the index after the
    first. *)
Theorem add_idempotent :
  ∀ index ref p, add ref p (add ref p index) = add ref p index.
Proof.
  intros index ref p.
  destruct (index !! ref) as [q|] eqn:H.
  - destruct (decide (q = ambiguityFlag)) as [->|Hq].
    { by rewrite !(add_lookup_flag index ref p H). }
    destruct (decide (q = p)) as [->|Hne].
    { by rewrite !(add_lookup_same index ref p H). }
    apply add_lookup_flag. by apply (add_lookup_conflict index ref p q).
  - apply add_lookup_same. by apply add_lookup_absent.
Qed.

End ReferenceIndex.

(* ===================================================================== *)
(** ** Properties of [getPageNew]                                        *)
(* ===================================================================== *)

Section GetPageNew.
Import hugolib.

Implicit Types (c : PageCollections) (context : option Page) (ref key : string).

(** A lookup never returns a page together with an error. *)
Lemma getFromCache_page_no_error c key p e :
  getFromCache c key ≠ (Some p, Some e).
Proof.
  unfold getFromCache, Get.
  destruct (loader (pageIndex c) tt) as [m [err|]]; [done|].
  destruct (bool_decide _); cbn; [|done].
  destruct (m !! key) as [q|]; [|done].
  destruct (bool_decide _); done.
Qed.


(** The loader installed by [refreshPageCaches] returns no error. *)
Lemma refreshPageCaches_loader c :
  loader (pageIndex (refreshPageCaches c)) tt
  = (fst (loader (pageIndex (refreshPageCaches c)) tt), None).
Proof. reflexivity. Qed.

(** Case analysis on the result of one lookup. *)
Ltac case_lookup c k :=
  let H := fresh "Hne" in
  let p := fresh "p" in
  let e := fresh "e" in
  pose proof (getFromCache_page_no_error c k) as H;
  destruct (getFromCache c k) as [[p|] [e|]];
  [ by destruct (H p e) | | | ]; clear H.

(** An error of [getPageNew] never names the context page: the page
    returned with an error by the last lookup is nil. *)
Lemma getPageNew_error_shape c context ref e :
  snd (getPageNew c context ref) = Some e → ∃ cause, e = ErrResolve cause.
Proof.
  unfold getPageNew.
  destruct (strings.HasPrefix ref "/"); cbn [negb];
    [case_lookup c ref; cbn [fst snd]; try done|];
    (destruct context as [ctx|];
     [case_lookup c (path.Join ["/"; strings.Join (sections ctx) "/"; ref]);
      cbn [fst snd]; try done|]);
    try (case_lookup c ("/" ++ ref)%string; cbn [fst snd]; try done);
    case_lookup c (strings.TrimPrefix ref "/"); cbn [fst snd];
    intros; simplify_eq; eauto.
Qed.


(** C3. [getPageNew] returns the page of the first of the four lookups, in
    the order of [spec.lookupOrder], that gives a page and no error; when
    none does, it returns no page. *)
Theorem getPageNew_first_hit :
  ∀ c context ref,
    match spec.firstHit c (spec.lookupOrder context ref) with
    | Some p => getPageNew c context ref = (Some p, None)
    | None => fst (getPageNew c context ref) = None
    end.
Proof.
  intros c context ref. unfold getPageNew, spec.lookupOrder.
  destruct (strings.HasPrefix ref "/"); cbn [negb app spec.firstHit];
    [case_lookup c ref; cbn [fst snd]; try done|];
    (destruct context as [ctx|]; cbn [app spec.firstHit];
     [case_lookup c (path.Join ["/"; strings.Join (sections ctx) "/"; ref]);
      cbn [fst snd]; try done|]);
    try (case_lookup c ("/" ++ ref)%string; cbn [fst snd]; try done);
    case_lookup c (strings.TrimPrefix ref "/"); cbn [fst snd]; done.
Qed.




End GetPageNew.


Section GetPageNewExamples.
Import hugolib.

(** An absolute reference is found by the first lookup. *)
Example getPageNew_absolute :
  getPageNew examples.collections None "/blog/a.md"
  = (Some examples.pageA, None).
Proof. vm_compute. reflexivity. Qed.

(** A file name shared by two pages is resolved relative to the context
    page by the second lookup. *)
Example getPageNew_relative :
  getPageNew examples.collections (Some examples.pageB) "a.md"
  = (Some examples.pageB, None).
Proof. vm_compute. reflexivity. Qed.

(** Without a context the shared file name is ambiguous; with a context
    whose section has no such page it is ambiguous too, and the error does
    not name the context page. *)
Example getPageNew_ambiguous :
  getPageNew examples.collections None "a.md"
  = (None, Some (ErrResolve (ErrAmbiguous "a.md")))
  ∧ getPageNew examples.collections
      (Some (mkPage 5 "page" "C" ["news"] (Some 1%positive) "en"
                    "/news/c.md" "c.md" "c")) "a.md"
    = (None, Some (ErrResolve (ErrAmbiguous "a.md"))).
Proof. split; vm_compute; reflexivity. Qed.

End GetPageNewExamples.

(* ===================================================================== *)
(** ** Properties of the layout cascade                                  *)
(* ===================================================================== *)

Section Layouts.
Import output.

(** A loop that appends [g t] for the elements [t] that pass [f]. *)
Lemma fold_left_append_if {A B : Type} (f : A → bool) (g : A → B)
  (l : list A) (acc : list B) :
  fold_left (fun out t => if f t then out ++ [g t] else out) l acc
  = acc ++ map g (List.filter f l).
Proof.
  revert acc. induction l as [|t l IH]; intros acc; cbn.
  - by rewrite app_nil_r.
  - rewrite IH. destruct (f t); cbn; [by rewrite <- app_assoc | done].
Qed.

Lemma layoutsWithThemeLayouts_bands (layouts : list string) :
  layoutsWithThemeLayouts layouts = spec.themeBands layouts.
Proof.
  unfold layoutsWithThemeLayouts, spec.themeBands.
  rewrite (fold_left_append_if
             (fun t => negb (strings.HasPrefix t "_internal/")) id).
  rewrite (fold_left_append_if
             (fun t => negb (strings.HasPrefix t "_internal/"))
             (fun t => ("theme/" ++ t)%string)).
  rewrite (fold_left_append_if
             (fun t => strings.HasPrefix t "_internal/") id).
  rewrite !map_id. cbn [app]. by rewrite <- app_assoc.
Qed.

(** C4. With a theme, [For] returns the candidates of the kind rearranged
    in three bands: those not internal, the same with [theme/] in front,
    then the internal ones, each in the original order. This holds of the
    rearrangement for every candidate list. *)
Theorem For_theme_bands :
  ∀ (id : LayoutIdentifier) (layoutOverride : string) (tp : Type_)
    (layouts : list string),
    For (NewLayoutHandler true) id layoutOverride tp
    = spec.themeBands (kindLayouts id layoutOverride tp)
    ∧ layoutsWithThemeLayouts layouts
      = List.filter (fun t => negb (spec.isInternal t)) layouts
        ++ map (fun t => ("theme/" ++ t)%string)
               (List.filter (fun t => negb (spec.isInternal t)) layouts)
        ++ List.filter spec.isInternal layouts.
Proof.
  intros id layoutOverride tp layouts. split.
  - unfold For. cbn [hasTheme]. apply layoutsWithThemeLayouts_bands.
  - apply layoutsWithThemeLayouts_bands.
Qed.

(** C9. For a kind that is none of home, section, taxonomy, taxonomyTerm
    and page, [For] returns the empty list, with or without a theme. *)
Theorem For_unknown_kind :
  ∀ (l : LayoutHandler) (id : LayoutIdentifier) (layoutOverride : string)
    (tp : Type_),
    PageKind id ∉ spec.knownKinds →
    For l id layoutOverride tp = [].
Proof.
  intros l id layoutOverride tp Hkind.
  assert (Hk : ∀ k, k ∈ spec.knownKinds → String.eqb (PageKind id) k = false).
  { intros k Hin. apply String.eqb_neq. intros Heq. apply Hkind.
    by rewrite Heq. }
  assert (Hnil : kindLayouts id layoutOverride tp = []).
  { unfold kindLayouts. cbv zeta.
    rewrite !Hk by (unfold spec.knownKinds; set_solver). done. }
  unfold For. rewrite Hnil. by destruct (hasTheme l).
Qed.

Lemma For_unknown_kind_witness :
  ("404" ∉ spec.knownKinds)
  ∧ For (NewLayoutHandler true)
        (mkLayoutIdentifier "post" "post" "404" "single") ""
        (mkType "HTML" (mkMediaType "html")) = []
  ∧ For (NewLayoutHandler false)
        (mkLayoutIdentifier "post" "post" "404" "single") ""
        (mkType "HTML" (mkMediaType "html")) = [].
Proof.
  assert (H : "404" ∉ spec.knownKinds).
  { unfold spec.knownKinds. rewrite !not_elem_of_cons.
    repeat split; try discriminate. apply not_elem_of_nil. }
  split; [exact H|]. split.
  - exact (For_unknown_kind (NewLayoutHandler true)
             (mkLayoutIdentifier "post" "post" "404" "single") ""
             (mkType "HTML" (mkMediaType "html")) H).
  - exact (For_unknown_kind (NewLayoutHandler false)
             (mkLayoutIdentifier "post" "post" "404" "single") ""
             (mkType "HTML" (mkMediaType "html")) H).
Defined.

(** A loop that appends two elements per index. *)
Lemma fold_left_append_two {A B : Type} (a b : A → B) (l : list A)
  (acc : list B) :
  fold_left (fun out i => (out ++ [a i]) ++ [b i]) l acc
  = acc ++ flat_map (fun i => [a i; b i]) l.
Proof.
  revert acc. induction l as [|i l IH]; intros acc; cbn.
  - by rewrite app_nil_r.
  - rewrite IH. by rewrite <- !app_assoc.
Qed.

Lemma flat_map_map {A B C : Type} (g : B → list C) (h : A → B) (l : list A) :
  flat_map g (map h l) = flat_map (fun x => g (h x)) l.
Proof. induction l as [|x l IH]; cbn; [done | by rewrite IH]. Qed.

Lemma prefixes_take (t : list string) :
  spec.prefixes t = map (fun k => take (S k) t) (seq 0 (length t)).
Proof.
  induction t as [|x t IH]; [done|].
  cbn [spec.prefixes length seq map]. f_equal.
  rewrite IH, <- seq_shift, !map_map. done.
Qed.

Lemma rev_map_seq {A : Type} (f : nat → A) (n : nat) :
  rev (map f (seq 0 n)) = map (fun i => f (n - 1 - i)) (seq 0 n).
Proof.
  induction n as [|n IH]; [done|].
  rewrite (seq_S n 0) at 1. rewrite map_app, rev_app_distr.
  cbn [map rev app plus]. rewrite IH. cbn [seq map].
  f_equal; [f_equal; lia|].
  rewrite <- seq_shift, map_map.
  apply map_ext. intros i. f_equal. lia.
Qed.

Lemma levels_take (t : list string) :
  spec.levels t = map (fun i => take (length t - i) t) (seq 0 (length t)).
Proof.
  unfold spec.levels. rewrite prefixes_take, rev_map_seq.
  apply map_ext_in. intros i Hi. apply in_seq in Hi. f_equal. lia.
Qed.

Lemma regularPageLayouts_cascade (types layout : string) (tp : Type_) :
  regularPageLayouts types layout tp = spec.pageCascade types layout tp.
Proof.
  unfold regularPageLayouts, spec.pageCascade. cbv zeta.
  destruct (String.eqb types ""); cbn [negb].
  - done.
  - rewrite (fold_left_append_two
               (fun i => sprintf4
                  (strings.ToLower
                     (path.Join (take (length (strings.Split types "/") - i)
                                      (strings.Split types "/"))))
                  (if String.eqb layout "" then "single" else layout)
                  (strings.ToLower (Name tp)) (Suffix (MediaType tp)))
               (fun i => sprintf3
                  (strings.ToLower
                     (path.Join (take (length (strings.Split types "/") - i)
                                      (strings.Split types "/"))))
                  (if String.eqb layout "" then "single" else layout)
                  (Suffix (MediaType tp)))).
    rewrite levels_take, flat_map_map.
    cbn [app]. by rewrite <- app_assoc.
Qed.

(** C5. For kind "page", type path [post/sub], layout [single], suffix
    [html], format name [html] and no theme, [For] returns the six
    candidates of the specification's example; and for every type path,
    layout and format, the candidates of kind "page" are those of
    [spec.pageCascade]: per level of the type path, from the whole path
    down to its first element, the variant with the format name then the
    plain variant, followed by the two [_default] candidates (the layout
    being the override when there is one, and [single] when empty). *)
Theorem regularPageLayouts_walks_type_path :
  ∀ (types layout : string) (tp : Type_),
    For (NewLayoutHandler false)
        (mkLayoutIdentifier "post/sub" "post" "page" "single") ""
        (mkType "html" (mkMediaType "html"))
    = [ "post/sub/single.html.html"; "post/sub/single.html";
        "post/single.html.html"; "post/single.html";
        "_default/single.html.html"; "_default/single.html" ]
    ∧ regularPageLayouts types layout tp = spec.pageCascade types layout tp
    ∧ (∀ section layoutOverride : string,
         For (NewLayoutHandler false)
             (mkLayoutIdentifier types section "page" layout)
             layoutOverride tp
         = spec.pageCascade types
             (if String.eqb layoutOverride "" then layout else layoutOverride)
             tp).
Proof.
  intros types layout tp. split; [vm_compute; reflexivity|].
  split; [apply regularPageLayouts_cascade|].
  intros section layoutOverride. unfold For, kindLayouts. cbn.
  destruct (String.eqb layoutOverride ""); apply regularPageLayouts_cascade.
Qed.

(** The specification's example with a theme: every candidate comes a
    second time with [theme/] in front, after the own candidates. *)
Example For_page_with_theme :
  For (NewLayoutHandler true)
      (mkLayoutIdentifier "post" "post" "page" "") ""
      (mkType "HTML" (mkMediaType "html"))
  = [ "post/single.html.html"; "post/single.html";
      "_default/single.html.html"; "_default/single.html";
      "theme/post/single.html.html"; "theme/post/single.html";
      "theme/_default/single.html.html"; "theme/_default/single.html" ].
Proof. vm_compute. reflexivity. Qed.

End Layouts.

(* ===================================================================== *)
(** ** Properties of the template identifier pass                        *)
(* ===================================================================== *)

Section TemplateIdentifiers.
Import tpl.

Implicit Types (d : decl) (idents resolved words pre rest : list string).

Lemma existsb_eqb_elem_of (ident : string) words :
  existsb (fun word => String.eqb ident word) words = true ↔ ident ∈ words.
Proof.
  rewrite existsb_exists. split.
  - intros (word & Hin & Heq). apply String.eqb_eq in Heq. subst.
    by apply list_elem_of_In.
  - intros Hin. exists ident. split; [by apply list_elem_of_In|].
    apply String.eqb_refl.
Qed.

Lemma firstRealIdent_passed words pre rest (i : Z) :
  Forall (spec.passedOver words) pre →
  firstRealIdent words i (pre ++ rest)
  = firstRealIdent words (i + Z.of_nat (length pre))%Z rest.
Proof.
  intros Hpre. revert i. induction Hpre as [|x pre Hx _ IH]; intros i.
  - cbn. f_equal. lia.
  - cbn [app firstRealIdent length].
    assert (Hskip : String.eqb x "" || startsWithDollar x = true
                    ∨ existsb (fun word => String.eqb x word) words = true).
    { destruct Hx as [->|[H|H]]; [by left | |].
      - left. rewrite H. apply orb_true_r.
      - right. by apply existsb_eqb_elem_of. }
    destruct (String.eqb x "" || startsWithDollar x).
    + rewrite IH. f_equal. lia.
    + destruct Hskip as [?|Hw]; [done|]. rewrite Hw. cbn [negb].
      rewrite IH. f_equal. lia.
Qed.

Lemma firstRealIdent_real words x rest (i : Z) :
  ¬ spec.passedOver words x → firstRealIdent words i (x :: rest) = i.
Proof.
  intros Hx. cbn [firstRealIdent].
  destruct (String.eqb x "") eqn:He.
  { apply String.eqb_eq in He. destruct Hx. by left. }
  destruct (startsWithDollar x) eqn:Hd.
  { destruct Hx. right. by left. }
  cbn [orb].
  destruct (existsb (fun word => String.eqb x word) words) eqn:Hw; [|done].
  apply existsb_eqb_elem_of in Hw. destruct Hx. right. by right.
Qed.

(** [sliceStartsWith] decides that [words] is a prefix of [slice]. *)
Lemma sliceStartsWith_prefix (slice : list string) words :
  sliceStartsWith slice words = true ↔ ∃ tl, slice = words ++ tl.
Proof.
  unfold sliceStartsWith. split.
  - destruct (length slice <? length words)%nat; [done|].
    rewrite forallb_forall. intros Hall.
    assert (Hlook : ∀ i w, words !! i = Some w → slice !! i = Some w).
    { intros i w Hw. specialize (Hall (i, w)). cbn in Hall.
      destruct (slice !! i) as [x|].
      - f_equal. symmetry. apply String.eqb_eq. apply Hall.
        apply list_elem_of_In, elem_of_lookup_imap. eauto.
      - discriminate Hall.
        apply list_elem_of_In, elem_of_lookup_imap. eauto. }
    clear Hall. revert slice Hlook.
    induction words as [|w words IH]; intros slice Hlook; [by eexists|].
    destruct slice as [|x slice]; [by specialize (Hlook 0%nat w eq_refl)|].
    pose proof (Hlook 0%nat w eq_refl) as H0. cbn in H0. simplify_eq.
    destruct (IH slice) as [tl ->]; [|by eexists].
    intros i w' Hw'. exact (Hlook (S i) w' Hw').
  - intros [tl ->].
    rewrite (proj2 (Nat.ltb_ge _ _)) by (rewrite length_app; lia).
    apply forallb_forall. intros [i w] Hin.
    apply list_elem_of_In, elem_of_lookup_imap in Hin.
    destruct Hin as (i' & w' & Heq & Hw'). simplify_eq.
    rewrite (lookup_app_l_Some _ _ _ _ Hw'). apply String.eqb_refl.
Qed.

(** No two of the parameter paths are prefixes of the same identifier. *)
Lemma paramsPaths_exclusive resolved (w1 w2 : list string) :
  w1 ∈ paramsPaths → w2 ∈ paramsPaths →
  sliceStartsWith resolved w1 = true → sliceStartsWith resolved w2 = true →
  w1 = w2.
Proof.
  intros H1 H2 [t1 E1]%sliceStartsWith_prefix [t2 E2]%sliceStartsWith_prefix.
  unfold paramsPaths in *. subst resolved.
  repeat (apply elem_of_cons in H1 as [->|H1]);
    try (by apply elem_of_nil in H1);
    repeat (apply elem_of_cons in H2 as [->|H2]);
    try (by apply elem_of_nil in H2);
    try reflexivity; cbn in E2; simplify_eq.
Qed.

(** The loop over the parameter paths returns the index found for the one
    path that the resolved identifier starts with. *)
Lemma firstParamsPath_match resolved idents words :
  words ∈ paramsPaths → sliceStartsWith resolved words = true →
  firstParamsPath resolved idents paramsPaths
  = firstRealIdent words 0 idents.
Proof.
  intros Hin Hpre.
  assert (Hother : ∀ w, w ∈ paramsPaths → w ≠ words →
            indexOfFirstRealIdentAfterWords resolved idents w = (-1)%Z).
  { intros w Hw Hne. unfold indexOfFirstRealIdentAfterWords.
    destruct (sliceStartsWith resolved w) eqn:E; [|done].
    destruct Hne. by apply (paramsPaths_exclusive resolved). }
  assert (Hthis : indexOfFirstRealIdentAfterWords resolved idents words
                  = firstRealIdent words 0 idents).
  { unfold indexOfFirstRealIdentAfterWords. by rewrite Hpre. }
  revert Hin Hother. generalize paramsPaths as paths.
  induction paths as [|w paths IH]; intros Hin Hother.
  - by apply elem_of_nil in Hin.
  - cbn [firstParamsPath].
    destruct (decide (w = words)) as [->|Hne].
    + rewrite Hthis.
      destruct (firstRealIdent words 0 idents =? -1)%Z eqn:E; [|done].
      cbn [negb]. apply Z.eqb_eq in E. rewrite E.
      clear IH Hin. induction paths as [|w' paths IH']; [done|].
      cbn [firstParamsPath].
      assert (indexOfFirstRealIdentAfterWords resolved idents w' = (-1)%Z)
        as ->.
      { destruct (decide (w' = words)) as [->|Hne'];
          [by rewrite Hthis | apply Hother; [set_solver | done]]. }
      cbn. apply IH'. intros w'' Hw''. apply Hother.
      apply elem_of_cons in Hw'' as [->|Hw'']; set_solver.
    + rewrite (Hother w) by (done || apply list_elem_of_here). cbn.
      apply elem_of_cons in Hin as [->|Hin]; [done|].
      apply IH; [done|]. intros w' Hw'. apply Hother.
      by apply list_elem_of_further.
Qed.

(** The loop of [updateIdentsIfNeeded] lower-cases the segments from
    [length pre] on. *)
Lemma lower_from pre rest :
  fold_left
    (fun idents i =>
       match idents !! i with
       | Some x => <[i := strings.ToLower x]> idents
       | None => idents
       end)
    (seq (length pre) (length rest)) (pre ++ rest)
  = pre ++ map strings.ToLower rest.
Proof.
  revert pre. induction rest as [|x rest IH]; intros pre; [done|].
  cbn [length seq fold_left map].
  rewrite list_lookup_middle by done.
  rewrite insert_app_r_alt, Nat.sub_diag by done. cbn [insert list_insert].
  rewrite !(cons_middle (strings.ToLower x)), !app_assoc.
  replace (S (length pre)) with (length (pre ++ [strings.ToLower x]))
    by (rewrite length_app; cbn; lia).
  apply IH.
Qed.

Lemma updateIdentsIfNeeded_from_first_real fuel d idents resolved words
  pre rest :
  resolvedIdents fuel d idents = Ok (Some resolved) →
  words ∈ paramsPaths → sliceStartsWith resolved words = true →
  idents = pre ++ rest →
  Forall (spec.passedOver words) pre →
  match rest with
  | [] => True
  | x :: _ => ¬ spec.passedOver words x
  end →
  updateIdentsIfNeeded fuel d idents
  = Ok (pre ++ map strings.ToLower rest).
Proof.
  intros Hres Hin Hstart -> Hpre Hreal.
  unfold updateIdentsIfNeeded, indexOfReplacementStart.
  rewrite Hres. cbn [mbind outcome_bind obind].
  rewrite (firstParamsPath_match resolved _ words Hin Hstart).
  rewrite (firstRealIdent_passed words pre rest 0 Hpre).
  destruct rest as [|x rest].
  - cbn. by rewrite app_nil_r.
  - rewrite (firstRealIdent_real words x rest _ Hreal).
    rewrite (proj2 (Z.eqb_neq _ _)) by lia.
    replace (Z.to_nat (0 + Z.of_nat (length pre))) with (length pre) by lia.
    replace (length (pre ++ x :: rest) - length pre)%nat
      with (length (x :: rest)) by (rewrite length_app; lia).
    f_equal. apply lower_from.
Qed.

(** C6. The pass rewrites [{{ $p := .Params }}{{ $p.MyKey }}] to the same
    tree with [mykey] for [MyKey], [$p] and [Params] as they were (6 units
    of fuel or more are enough). In general: when the identifier with its
    variables resolved starts with one of the parameter paths, and the
    identifier (none of whose segments is empty) splits into [pre], made of
    [$]-variables and words of that path, and [rest], which is empty or
    starts with a segment that is neither, then the identifier becomes
    [pre] followed by [rest] in lower case. *)
Theorem updateIdentsIfNeeded_lowercases_params :
  (∀ n : nat,
      applyTemplateTransformers (6 + n)
        (Some (mkTemplate "page.html" {["page.html" := examples.paramsAlias]}))
      = Ok (None,
            Some (mkTemplate "page.html"
                    {["page.html" := examples.paramsAliasLowered]})))
  ∧ (∀ fuel d idents resolved words pre rest,
      resolvedIdents fuel d idents = Ok (Some resolved) →
      words ∈ paramsPaths → sliceStartsWith resolved words = true →
      "" ∉ idents →
      idents = pre ++ rest →
      Forall (fun x => startsWithDollar x = true ∨ x ∈ words) pre →
      match rest with
      | [] => True
      | x :: _ => startsWithDollar x = false ∧ x ∉ words
      end →
      updateIdentsIfNeeded fuel d idents
      = Ok (pre ++ map strings.ToLower rest)).
Proof.
  split.
  - intros n. vm_compute. reflexivity.
  - intros fuel d idents resolved words pre rest Hres Hin Hstart Hne Heq
      Hpre Hreal.
    apply (updateIdentsIfNeeded_from_first_real fuel d idents resolved words
             pre rest Hres Hin Hstart Heq).
    + eapply Forall_impl; [exact Hpre|]. intros x Hx. right. exact Hx.
    + destruct rest as [|x rest]; [done|]. destruct Hreal as [Hd Hw].
      intros [->|[H|H]]; [|congruence|done].
      apply Hne. subst idents. apply elem_of_app. right. left.
Qed.

Lemma updateIdentsIfNeeded_lowercases_params_witness :
  resolvedIdents 2 (<["$p" := ".Params"]> ∅) ["$p"; "MyKey"]
    = Ok (Some ["Params"; "MyKey"])
  ∧ (["Params"] ∈ paramsPaths)
  ∧ sliceStartsWith ["Params"; "MyKey"] ["Params"] = true
  ∧ ("" ∉ ["$p"; "MyKey"])
  ∧ Forall (fun x => startsWithDollar x = true ∨ x ∈ ["Params"]) ["$p"]
  ∧ (startsWithDollar "MyKey" = false ∧ "MyKey" ∉ ["Params"])
  ∧ updateIdentsIfNeeded 2 (<["$p" := ".Params"]> ∅) ["$p"; "MyKey"]
    = Ok ["$p"; "mykey"].
Proof.
  assert (H1 : resolvedIdents 2 (<["$p" := ".Params"]> ∅) ["$p"; "MyKey"]
               = Ok (Some ["Params"; "MyKey"])) by (vm_compute; reflexivity).
  assert (H2 : ["Params"] ∈ paramsPaths) by (unfold paramsPaths; left).
  assert (H3 : sliceStartsWith ["Params"; "MyKey"] ["Params"] = true)
    by reflexivity.
  assert (H4 : "" ∉ ["$p"; "MyKey"]).
  { rewrite !not_elem_of_cons. repeat split; try discriminate.
    apply not_elem_of_nil. }
  assert (H5 : Forall (fun x => startsWithDollar x = true ∨ x ∈ ["Params"])
                      ["$p"]).
  { constructor; [left; reflexivity | constructor]. }
  assert (H6 : startsWithDollar "MyKey" = false ∧ "MyKey" ∉ ["Params"]).
  { split; [reflexivity|]. rewrite !not_elem_of_cons.
    split; [discriminate | apply not_elem_of_nil]. }
  split; [exact H1|]. split; [exact H2|]. split; [exact H3|].
  split; [exact H4|]. split; [exact H5|]. split; [exact H6|].
  exact (proj2 updateIdentsIfNeeded_lowercases_params 2
           (<["$p" := ".Params"]> ∅) ["$p"; "MyKey"] ["Params"; "MyKey"]
           ["Params"] ["$p"] ["MyKey"] H1 H2 H3 H4 eq_refl H5 H6).
Defined.

(** A key used in a partial is lowered in the set of templates when the
    page that includes the partial is transformed. *)
Example applyTemplateTransformers_partial :
  applyTemplateTransformers 8
    (Some (mkTemplate "page.html"
             (<["page.html" := ListNode [TemplateNode "partial.html"]]>
                {["partial.html" :=
                    ListNode
                      [ActionNode
                         (PipeNode []
                            [CommandNode
                               [FieldNode ["Site"; "Params"; "Author"]]])]]})))
  = Ok (None,
        Some (mkTemplate "page.html"
                (<["page.html" := ListNode [TemplateNode "partial.html"]]>
                   {["partial.html" :=
                       ListNode
                         [ActionNode
                            (PipeNode []
                               [CommandNode
                                  [FieldNode ["Site"; "Params"; "author"]]])]]}))).
Proof. vm_compute. reflexivity. Qed.

(** A template that includes itself is walked without end. *)
Lemma paramsKeysToLower_self_include (fuel : nat) (c : templateContext) :
  templ c !! "loop.html" = Some (ListNode [TemplateNode "loop.html"]) →
  paramsKeysToLower fuel c (ListNode [TemplateNode "loop.html"]) = OutOfFuel.
Proof.
  revert c. induction fuel as [fuel IH] using (well_founded_induction lt_wf).
  intros c Hc. destruct fuel as [|[|fuel]]; [done|done|].
  cbn [paramsKeysToLower walkNodes mbind outcome_bind obind]. rewrite Hc.
  by rewrite (IH fuel) by (lia || done).
Qed.

(** A segment that is a word of the path is passed over even after the
    path: in [$s.Params.Site.Foo] with [$s := .Site] the parameter key
    [Site] stays, [Foo] is lowered. *)
Example updateIdentsIfNeeded_word_as_key :
  updateIdentsIfNeeded 3 (<["$s" := ".Site"]> ∅) ["$s"; "Params"; "Site"; "Foo"]
  = Ok ["$s"; "Params"; "Site"; "foo"].
Proof. vm_compute. reflexivity. Qed.

(** A variable declared as itself is resolved for ever: no amount of fuel
    returns. *)
Lemma resolveLoop_self_alias (fuel i : nat) (replacements replaced : list string) :
  (∀ j, (i ≤ j)%nat → j < length replacements → replacements !! j = Some "$a") →
  i < length replacements →
  resolveLoop fuel (<["$a" := "$a"]> ∅) replacements i replaced = OutOfFuel.
Proof.
  revert i replacements replaced.
  induction fuel as [|fuel IH]; intros i replacements replaced Hall Hi; [done|].
  cbn [resolveLoop]. rewrite (Hall i) by lia.
  change (String.eqb "$a" "$") with false.
  change (String.eqb "$a" "" || negb (startsWithDollar "$a")) with false.
  cbv iota. rewrite lookup_insert_eq.
  change (strings.TrimPrefix "$a" ".") with "$a".
  change (String.eqb "$a" "") with false.
  change (startsWithDollar "$a") with true. cbv iota.
  change (strings.Split "$a" ".") with ["$a"].
  apply IH.
  - intros j Hj Hlen. rewrite length_app in Hlen. cbn in Hlen.
    destruct (decide (j < length replacements)) as [Hlt|Hge].
    + rewrite lookup_app_l by done. apply Hall; lia.
    + assert (j = length replacements) as -> by lia.
      by rewrite list_lookup_middle.
  - rewrite length_app. cbn. lia.
Qed.

End TemplateIdentifiers.

(* ===================================================================== *)
(** ** Properties of the build driver                                    *)
(* ===================================================================== *)

Section Build.
Import site.
Context {external : External} {engine : Engine}.

Implicit Types (s : Site) (st : state).

Lemma bind_Ok {A B : Type} (a : A) (k : A → outcome B) : Ok a ≫= k = k a.
Proof. reflexivity. Qed.

Lemma obind_Ok_inv {A B : Type} (m : outcome A) (k : A → outcome B) (b : B) :
  m ≫= k = Ok b → ∃ a, m = Ok a ∧ k a = Ok b.
Proof. destruct m as [a| |]; cbn; [eauto | done | done]. Qed.

(** Without pages the taxonomy loops add nothing and cannot panic. *)
Lemma buildIndexes_no_pages (plurals : list string)
  (indexes : gmap string (gmap string (list Page))) :
  ∃ indexes', buildIndexes plurals [] indexes = Ok indexes'.
Proof.
  revert indexes. induction plurals as [|plural plurals IH]; intros indexes.
  - by eexists.
  - cbn. apply IH.
Qed.

Lemma BuildSiteMeta_no_pages s :
  Pages_ s = [] →
  ∃ s', BuildSiteMeta s = Ok (s', Some (noPagesError s))
        ∧ timer s' = timer s ∧ Pages_ s' = [].
Proof.
  intros Hp. unfold BuildSiteMeta. cbn [set_Indexes set_Sections Pages_ c Indexes].
  rewrite Hp.
  destruct (buildIndexes_no_pages (map snd (Indexes_ (c s))) ∅) as [idx ->].
  cbn. rewrite Hp. eexists. split; [reflexivity|]. done.
Qed.

Lemma fold_walk_timer (entries : list (string * bool)) s :
  timer
    (fold_left
       (fun site '(path, isDir) =>
          if isDir : bool
          then set_Directories site (Directories site ++ [path])
          else set_Files site (Files site ++ [path]))
       entries s)
  = timer s.
Proof.
  revert s. induction entries as [|[path isDir] entries IH]; intros s; [done|].
  cbn [fold_left]. rewrite IH. by destruct isDir.
Qed.

Lemma initialize_timer s s' : initialize s = Ok s' → timer s' = timer s.
Proof.
  unfold initialize. intros (_ & _ & H)%obind_Ok_inv. simplify_eq.
  cbn [set_Info timer]. apply fold_walk_timer.
Qed.

Lemma prepTemplates_timer s s' : prepTemplates s = Ok s' → timer s' = timer s.
Proof.
  unfold prepTemplates. destruct (parseLayouts (c s)); [|done].
  by intros [= <-].
Qed.

Lemma CreatePages_timer s : timer (CreatePages s) = timer s.
Proof.
  unfold CreatePages. cbn [set_Pages timer].
  generalize (Files s). intros files. revert s.
  induction files as [|f files IH]; intros s; [done|].
  cbn [fold_left]. rewrite IH. by destruct (_ || _).
Qed.

Lemma materialized_timer s s1 :
  spec.materialized s = Ok s1 →
  timer s1 = timer s ++ ["initialize & template prep"; "import pages"].
Proof.
  unfold spec.materialized.
  intros (sa & Ha & (sb & Hb & H)%obind_Ok_inv)%obind_Ok_inv. simplify_eq.
  cbn [Step timer setupPrevNext set_Pages].
  rewrite CreatePages_timer. cbn [Step timer].
  rewrite (prepTemplates_timer _ _ Hb), (initialize_timer _ _ Ha).
  by rewrite <- app_assoc.
Qed.

(** C7. When page materialization leaves the site without pages, [Build]
    returns the no-pages error of [BuildSiteMeta]; the events of the build
    (templates executed, files written) are those from before it, and the
    timer has recorded the two steps before the metadata and none of the
    render or write steps. *)
Theorem Build_fails_without_pages :
  ∀ st (s1 : Site),
    spec.materialized (fst st) = Ok s1 →
    Pages_ s1 = [] →
    ∃ s2,
      Build st = Ok (Some (noPagesError s1), (s2, snd st))
      ∧ BuildSiteMeta s1 = Ok (s2, Some (noPagesError s1))
      ∧ timer s2
        = timer (fst st) ++ ["initialize & template prep"; "import pages"].
Proof.
  intros st s1 Hm Hp.
  destruct (BuildSiteMeta_no_pages s1 Hp) as (s2 & Hmeta & Ht & _).
  exists s2. split; [|split; [exact Hmeta|]].
  - pose proof Hm as Hm'. unfold spec.materialized in Hm'.
    apply obind_Ok_inv in Hm' as (sa & Ha & Hm').
    apply obind_Ok_inv in Hm' as (sb & Hb & Hm'). injection Hm' as <-.
    unfold Build, Process.
    rewrite Ha, bind_Ok, Hb, bind_Ok, Hmeta, bind_Ok. reflexivity.
  - rewrite Ht. by apply materialized_timer.
Qed.

(** C10. On a site with templates and at least one page, [RenderHomePage]
    executes the template [index.html] on a node whose [Data] binds
    ["Pages"] to the first 9 pages of [s.Pages]: all of them when there are
    fewer than 9, exactly 9 otherwise. *)
Theorem RenderHomePage_first_nine_pages :
  ∀ st (tmpl : Template) (p0 : Page) (more : Pages),
    Tmpl (fst st) = Some tmpl →
    Pages_ (fst st) = p0 :: more →
    ∃ (n : Node) (err : option string) (st' : state) (later : list event),
      RenderHomePage st = Ok (err, st')
      ∧ snd st' = snd st ++ Executed "index.html" (inl n) :: later
      ∧ Node_Data n !! "Pages" = Some (DataPages (take 9 (Pages_ (fst st))))
      ∧ ((length (Pages_ (fst st)) < 9)%nat →
         take 9 (Pages_ (fst st)) = Pages_ (fst st))
      ∧ ((9 ≤ length (Pages_ (fst st)))%nat →
         length (take 9 (Pages_ (fst st))) = 9%nat).
Proof.
  intros [s evs] tmpl p0 more Ht Hp. cbn [fst snd] in *.
  assert (Hdata :
    ∀ (m : gmap string DataVal),
      (if (length (Pages_ s) <? 9)%nat
       then <["Pages" := DataPages (Pages_ s)]> m
       else <["Pages" := DataPages (take 9 (Pages_ s))]> m) !! "Pages"
      = Some (DataPages (take 9 (Pages_ s)))).
  { intros m. destruct (length (Pages_ s) <? 9)%nat eqn:E;
      rewrite lookup_insert_eq; [|done].
    apply Nat.ltb_lt in E. by rewrite take_ge by lia. }
  unfold RenderHomePage, RenderThing. cbn [fst snd].
  rewrite Hp, <- Hp, Ht.
  destruct (ExecuteTemplate tmpl "index.html" _) as [x [e|]] eqn:Hx;
    cbn [mbind outcome_bind obind WritePublic fst snd].
  - eexists _, _, _, []. split; [reflexivity|]. split; [reflexivity|].
    split; [apply Hdata|]. split; intros; [by rewrite take_ge by lia|].
    rewrite length_take. lia.
  - rewrite Ht. destruct (Lookup tmpl "rss.xml").
    + destruct (ExecuteTemplate tmpl "rss.xml" _) as [y ?].
      eexists _, _, _, _. split; [reflexivity|]. cbn [snd].
      split; [by rewrite <- !app_assoc|].
      split; [apply Hdata|]. split; intros; [by rewrite take_ge by lia|].
      rewrite length_take. lia.
    + eexists _, _, _, _. split; [reflexivity|]. cbn [snd].
      split; [by rewrite <- !app_assoc|].
      split; [apply Hdata|]. split; intros; [by rewrite take_ge by lia|].
      rewrite length_take. lia.
Qed.

End Build.

Section BuildWitnesses.
Import site.

Lemma Build_fails_without_pages_witness :
  @spec.materialized (examples.demoExternal []) (examples.demoEngine [])
     (examples.demoSite []) = Ok examples.emptyMaterialized
  ∧ Pages_ examples.emptyMaterialized = []
  ∧ ∃ s2,
      @Build (examples.demoExternal []) (examples.demoEngine [])
         (examples.demoSite [], [])
      = Ok (Some (noPagesError examples.emptyMaterialized), (s2, []))
      ∧ @BuildSiteMeta (examples.demoExternal []) (examples.demoEngine [])
          examples.emptyMaterialized
        = Ok (s2, Some (noPagesError examples.emptyMaterialized))
      ∧ timer s2 = [] ++ ["initialize & template prep"; "import pages"].
Proof.
  assert (Hm : @spec.materialized (examples.demoExternal [])
                 (examples.demoEngine []) (examples.demoSite [])
               = Ok examples.emptyMaterialized) by (vm_compute; reflexivity).
  assert (Hp : Pages_ examples.emptyMaterialized = [])
    by (vm_compute; reflexivity).
  split; [exact Hm|]. split; [exact Hp|].
  exact (@Build_fails_without_pages (examples.demoExternal [])
           (examples.demoEngine []) (examples.demoSite [], [])
           examples.emptyMaterialized Hm Hp).
Defined.

Lemma RenderHomePage_first_nine_pages_witness :
  Tmpl examples.tenPageSite = Some tt
  ∧ Pages_ examples.tenPageSite
    = examples.demoPage examples.tenFiles "a"
      :: map (examples.demoPage examples.tenFiles)
             ["b"; "c"; "d"; "e"; "f"; "g"; "h"; "i"; "j"]
  ∧ ∃ (n : Node) (err : option string) (st' : state) (later : list event),
      @RenderHomePage (examples.demoExternal examples.tenFiles)
         (examples.demoEngine examples.tenFiles) (examples.tenPageSite, [])
      = Ok (err, st')
      ∧ snd st' = [] ++ Executed "index.html" (inl n) :: later
      ∧ Node_Data n !! "Pages"
        = Some (DataPages (take 9 (Pages_ examples.tenPageSite)))
      ∧ ((length (Pages_ examples.tenPageSite) < 9)%nat →
         take 9 (Pages_ examples.tenPageSite) = Pages_ examples.tenPageSite)
      ∧ ((9 ≤ length (Pages_ examples.tenPageSite))%nat →
         length (take 9 (Pages_ examples.tenPageSite)) = 9%nat).
Proof.
  assert (Ht : Tmpl examples.tenPageSite = Some tt) by reflexivity.
  assert (Hp : Pages_ examples.tenPageSite
               = examples.demoPage examples.tenFiles "a"
                 :: map (examples.demoPage examples.tenFiles)
                        ["b"; "c"; "d"; "e"; "f"; "g"; "h"; "i"; "j"])
    by reflexivity.
  split; [exact Ht|]. split; [exact Hp|].
  exact (@RenderHomePage_first_nine_pages
           (examples.demoExternal examples.tenFiles)
           (examples.demoEngine examples.tenFiles)
           (examples.tenPageSite, []) tt _ _ Ht Hp).
Defined.

(** With ten pages the home template gets the first nine. *)
Example RenderHomePage_ten_pages :
  ∃ n st',
    @RenderHomePage (examples.demoExternal examples.tenFiles)
       (examples.demoEngine examples.tenFiles) (examples.tenPageSite, [])
    = Ok (None, st')
    ∧ head (snd st') = Some (Executed "index.html" (inl n))
    ∧ Node_Data n !! "Pages"
      = Some (DataPages
                (map (examples.demoPage examples.tenFiles)
                     ["a"; "b"; "c"; "d"; "e"; "f"; "g"; "h"; "i"])).
Proof.
  eexists _, _. split; [vm_compute; reflexivity|].
  split; [reflexivity|]. vm_compute. reflexivity.
Qed.

(** A build of two content files runs every phase in order. *)
Example Build_two_pages :
  match @Build (examples.demoExternal ["a"; "b"])
          (examples.demoEngine ["a"; "b"]) (examples.demoSite ["a"; "b"], [])
  with
  | Ok (err, (s, evs)) =>
      err = None
      ∧ timer s
        = [ "initialize & template prep"; "import pages"; "build indexes";
            "render shortcodes"; "absolute URLify";
            "render and write indexes"; "render and write lists";
            "render pages"; "render and write homepage"; "write pages" ]
      ∧ length evs = 6%nat
  | _ => False
  end.
Proof. vm_compute. repeat split. Qed.

End BuildWitnesses.

(* ===================================================================== *)
(** ** More on the reference index                                       *)
(* ===================================================================== *)

Section ReferenceIndexMore.
Import hugolib.

Implicit Types (index : gmap string Page) (p q : Page) (ref key : string)
  (ins : list (string * Page)).

(** The binding of every key after one insertion. *)
Lemma add_lookup index ref key p :
  add ref p index !! key
  = if decide (key = ref) then Some (spec.merge (index !! ref) p)
    else index !! key.
Proof.
  destruct (decide (key = ref)) as [->|Hne].
  - unfold add, spec.merge. destruct (index !! ref) as [e|] eqn:E.
    + destruct (_ && _); [apply lookup_insert_eq | done].
    + apply lookup_insert_eq.
  - by apply add_lookup_other.
Qed.

(** Case analysis on the comparisons of pages in the goal, innermost
    first. *)
Ltac decide_pages :=
  repeat match goal with
         | |- context [bool_decide (?a ≠ ?b)] =>
             first [is_var a | constr_eq a ambiguityFlag];
             first [is_var b | constr_eq b ambiguityFlag];
             let H := fresh "H" in
             destruct (decide (a = b)) as [H|H];
             [ rewrite (bool_decide_eq_false_2 (a ≠ b)) by tauto
             | rewrite (bool_decide_eq_true_2 (a ≠ b)) by done ];
             cbn [andb]; cbv iota
         | |- context [bool_decide (?a = ?b)] =>
             first [is_var a | constr_eq a ambiguityFlag];
             first [is_var b | constr_eq b ambiguityFlag];
             let H := fresh "H" in
             destruct (decide (a = b)) as [H|H];
             [ rewrite (bool_decide_eq_true_2 (a = b)) by done
             | rewrite (bool_decide_eq_false_2 (a = b)) by done ];
             cbn [andb]; cbv iota
         end.

Lemma merge_comm (o : option Page) p q :
  spec.merge (Some (spec.merge o q)) p = spec.merge (Some (spec.merge o p)) q.
Proof.
  unfold spec.merge. destruct o as [e|];
    decide_pages; congruence.
Qed.

Lemma add_comm index ref1 ref2 p1 p2 :
  add ref1 p1 (add ref2 p2 index) = add ref2 p2 (add ref1 p1 index).
Proof.
  apply map_eq. intros key. rewrite !add_lookup.
  repeat case_decide; simplify_eq; try done.
  f_equal. apply merge_comm.
Qed.

Lemma addAll_cons ins index ref p :
  spec.addAll ((ref, p) :: ins) index = spec.addAll ins (add ref p index).
Proof. reflexivity. Qed.

Lemma addAll_add ins index ref p :
  spec.addAll ins (add ref p index) = add ref p (spec.addAll ins index).
Proof.
  revert index. induction ins as [|[r q] ins IH]; intros index; [done|].
  rewrite !addAll_cons, <- IH. f_equal. apply add_comm.
Qed.

(** X1. The index does not depend on the order in which the pages are
    inserted: two insertions commute, and a rearranged sequence of
    insertions builds the same index. *)
Theorem addAll_order_irrelevant :
  ∀ ins ins' index,
    ins ≡ₚ ins' → spec.addAll ins index = spec.addAll ins' index.
Proof.
  intros ins ins' index Hperm. revert index.
  induction Hperm as [|[r p] l l' _ IH|[r1 p1] [r2 p2] l|l1 l2 l3 _ IH1 _ IH2];
    intros index.
  - done.
  - rewrite !addAll_cons. apply IH.
  - rewrite !addAll_cons. f_equal. apply add_comm.
  - by rewrite IH1.
Qed.

Lemma addAll_order_irrelevant_witness :
  [("a.md", examples.pageA); ("a.md", examples.pageB); ("b", examples.pageB)]
    ≡ₚ [("b", examples.pageB); ("a.md", examples.pageB);
        ("a.md", examples.pageA)]
  ∧ spec.addAll
      [("a.md", examples.pageA); ("a.md", examples.pageB);
       ("b", examples.pageB)] ∅
    = spec.addAll
        [("b", examples.pageB); ("a.md", examples.pageB);
         ("a.md", examples.pageA)] ∅.
Proof.
  assert (H : [("a.md", examples.pageA); ("a.md", examples.pageB);
               ("b", examples.pageB)]
              ≡ₚ [("b", examples.pageB); ("a.md", examples.pageB);
                  ("a.md", examples.pageA)]).
  { apply (Permutation_rev
             [("a.md", examples.pageA); ("a.md", examples.pageB);
              ("b", examples.pageB)]). }
  split; [exact H|]. exact (addAll_order_irrelevant _ _ ∅ H).
Defined.

Lemma resolution_snoc (ps : list Page) p :
  spec.resolution (ps ++ [p]) = Some (spec.merge (spec.resolution ps) p).
Proof.
  destruct ps as [|q more]; [done|].
  cbn [app spec.resolution]. rewrite forallb_app. cbn [forallb].
  rewrite andb_true_r. unfold spec.merge.
  destruct (forallb _ more); cbn [andb];
    decide_pages; congruence.
Qed.

Lemma under_snoc key ins ref p :
  spec.under key (ins ++ [(ref, p)])
  = spec.under key ins ++ (if String.eqb ref key then [p] else []).
Proof.
  unfold spec.under. rewrite List.filter_app, map_app. cbn.
  by destruct (String.eqb ref key).
Qed.

Lemma addAll_snoc ins index ref p :
  spec.addAll (ins ++ [(ref, p)]) index = add ref p (spec.addAll ins index).
Proof. unfold spec.addAll. by rewrite fold_left_app. Qed.

(** X2. The index built by a sequence of insertions binds a key to nothing
    when no page was inserted under it, to the page when every insertion
    under it was that page, and to the ambiguity flag otherwise. *)
Theorem addAll_resolution :
  ∀ ins key, spec.addAll ins ∅ !! key = spec.resolution (spec.under key ins).
Proof.
  intros ins key. induction ins as [|[ref p] ins IH] using rev_ind.
  - apply lookup_empty.
  - rewrite addAll_snoc, add_lookup, under_snoc.
    destruct (decide (key = ref)) as [->|Hne].
    + rewrite String.eqb_refl, resolution_snoc. by rewrite IH.
    + rewrite (proj2 (String.eqb_neq ref key)) by done.
      by rewrite app_nil_r.
Qed.

Lemma claimed_add index key p : spec.claimed (add key p index) key p.
Proof.
  unfold spec.claimed. rewrite add_lookup, decide_True by done.
  unfold spec.merge. destruct (index !! key) as [e|]; [|by left].
  decide_pages; subst; auto.
Qed.

Lemma claimed_add_keep index key p ref q :
  spec.claimed index key p → spec.claimed (add ref q index) key p.
Proof.
  unfold spec.claimed. rewrite add_lookup. case_decide; [subst|done].
  intros [->| ->]; unfold spec.merge; decide_pages; subst; auto.
Qed.

Lemma claimed_insertions index0 index key p :
  spec.insertions_from index0 index → spec.claimed index0 key p →
  spec.claimed index key p.
Proof.
  intros [ins ->]. revert index0.
  induction ins as [|[r q] ins IH]; intros index0 H; [done|].
  rewrite addAll_cons. apply IH. by apply claimed_add_keep.
Qed.

Lemma indexRegularPage_insertions (s : option positive) index p :
  spec.insertions_from
    (add (path.Join [("/" ++ Lang p)%string; absoluteSourceRef p]) p index)
    (indexRegularPage s index p).
Proof.
  unfold indexRegularPage. cbv zeta.
  (destruct (_ && _); [|by apply insertions_refl]);
    apply insertions_add;
    (destruct (String.eqb (TranslationBaseName p) "index");
     [do 2 apply insertions_add | apply insertions_add]);
    apply insertions_add;
    (destruct (negb _); [apply insertions_add|]);
    by apply insertions_refl.
Qed.

Lemma indexRegularPage_from index0 (s : option positive) index p :
  spec.insertions_from index0 index →
  spec.insertions_from index0 (indexRegularPage s index p).
Proof.
  intros [ins ->].
  destruct (indexRegularPage_insertions s (spec.addAll ins index0) p)
    as [ins' ->].
  exists ((ins ++ [(path.Join [("/" ++ Lang p)%string; absoluteSourceRef p], p)])
          ++ ins').
  unfold spec.addAll. by rewrite !fold_left_app.
Qed.

Lemma indexIndexPage_from index0 index p :
  spec.insertions_from index0 index →
  spec.insertions_from index0 (indexIndexPage index p).
Proof.
  intros H. unfold indexIndexPage. cbv zeta.
  apply insertions_add. by destruct (negb _); [apply insertions_add|].
Qed.

Lemma fold_from (f : gmap string Page → Page → gmap string Page)
  (pages : Pages) index :
  (∀ index p, spec.insertions_from index (f index p)) →
  spec.insertions_from index (fold_left f pages index).
Proof.
  intros Hf. apply insertions_fold; [|apply insertions_refl].
  intros index' p [ins ->]. destruct (Hf (spec.addAll ins index) p) as [ins' ->].
  exists (ins ++ ins'). unfold spec.addAll. by rewrite fold_left_app.
Qed.

Lemma fold_claimed (f : gmap string Page → Page → gmap string Page)
  (pages : Pages) index (keyOf : Page → string) p :
  (∀ index q, spec.insertions_from index (f index q)) →
  (∀ index, spec.claimed (f index p) (keyOf p) p) →
  p ∈ pages → spec.claimed (fold_left f pages index) (keyOf p) p.
Proof.
  intros Hf Hp. revert index.
  induction pages as [|q pages IH]; intros index Hin.
  - by apply elem_of_nil in Hin.
  - cbn [fold_left]. apply elem_of_cons in Hin as [<-|Hin].
    + eapply claimed_insertions; [by apply fold_from | apply Hp].
    + by apply IH.
Qed.

(** X3. After [refreshPageCaches], every regular and every headless page is
    found under its language-qualified path, and every index page under the
    path of its sections, unless that key has become ambiguous. *)
Theorem indexLoader_covers_pages :
  ∀ (c0 : PageCollections) (p : Page),
    let c := refreshPageCaches c0 in
    let index := fst (loader (pageIndex c) tt) in
    (p ∈ AllRegularPages c ++ headlessPages c →
     spec.claimed index
       (path.Join [("/" ++ Lang p)%string; absoluteSourceRef p]) p)
    ∧ (p ∈ indexPages c →
       spec.claimed index ("/" ++ path.Join (sections p))%string p).
Proof.
  intros c0 p c index. subst c index.
  cbn [refreshPageCaches pageIndex loader indexLoader AllRegularPages
       headlessPages indexPages fst fold_left].
  set (s := match Pages_ c0 with p0 :: _ => site p0 | [] => None end).
  split.
  - intros Hin.
    eapply claimed_insertions.
    { apply fold_from. intros index q. apply indexIndexPage_from,
        insertions_refl. }
    apply elem_of_app in Hin as [Hin|Hin].
    + eapply claimed_insertions.
      { apply fold_from. intros index q. apply indexRegularPage_from,
          insertions_refl. }
      apply (fold_claimed (indexRegularPage s) _ _
               (fun p => path.Join [("/" ++ Lang p)%string;
                                    absoluteSourceRef p]) p); [| |done].
      * intros index q. apply indexRegularPage_from, insertions_refl.
      * intros index. eapply claimed_insertions;
          [apply indexRegularPage_insertions | apply claimed_add].
    + apply (fold_claimed (indexRegularPage s) _ _
               (fun p => path.Join [("/" ++ Lang p)%string;
                                    absoluteSourceRef p]) p); [| |done].
      * intros index q. apply indexRegularPage_from, insertions_refl.
      * intros index. eapply claimed_insertions;
          [apply indexRegularPage_insertions | apply claimed_add].
  - intros Hin.
    apply (fold_claimed indexIndexPage _ _
             (fun p => ("/" ++ path.Join (sections p))%string) p); [| |done].
    + intros index q. apply indexIndexPage_from, insertions_refl.
    + intros index. unfold indexIndexPage. cbv zeta. apply claimed_add.
Qed.

Lemma indexLoader_covers_pages_witness :
  (examples.pageB
     ∈ AllRegularPages (refreshPageCaches examples.rawCollections)
       ++ headlessPages (refreshPageCaches examples.rawCollections))
  ∧ spec.claimed
      (fst (loader (pageIndex (refreshPageCaches examples.rawCollections)) tt))
      (path.Join [("/" ++ Lang examples.pageB)%string;
                  absoluteSourceRef examples.pageB]) examples.pageB
  ∧ (examples.sectionBlog
       ∈ indexPages (refreshPageCaches examples.rawCollections))
  ∧ spec.claimed
      (fst (loader (pageIndex (refreshPageCaches examples.rawCollections)) tt))
      ("/" ++ path.Join (sections examples.sectionBlog))%string
      examples.sectionBlog.
Proof.
  assert (H1 : examples.pageB
                 ∈ AllRegularPages (refreshPageCaches examples.rawCollections)
                   ++ headlessPages
                        (refreshPageCaches examples.rawCollections)).
  { apply elem_of_app. left. right. left. }
  assert (H2 : examples.sectionBlog
                 ∈ indexPages (refreshPageCaches examples.rawCollections))
    by left.
  split; [exact H1|].
  split; [exact (proj1 (indexLoader_covers_pages examples.rawCollections
                          examples.pageB) H1)|].
  split; [exact H2|].
  exact (proj2 (indexLoader_covers_pages examples.rawCollections
                  examples.sectionBlog) H2).
Defined.

End ReferenceIndexMore.

(* ===================================================================== *)
(** ** More on lookups and on the page collections                       *)
(* ===================================================================== *)

Section LookupsMore.
Import hugolib.

Implicit Types (c : PageCollections) (context : option Page) (ref key : string)
  (m : gmap string Page).

#[local] Set Warnings "-clear-no-such-hyp".

(** The three results that one lookup can have. *)
Ltac lookup_cases c k :=
  let H := fresh "Hne" in
  let p := fresh "p" in
  let e := fresh "e" in
  pose proof (getFromCache_page_no_error c k) as H;
  destruct (getFromCache c k) as [[p|] [e|]];
  [ by destruct (H p e) | | | ]; clear H.

(** X4. A lookup in an index that was built returns the page bound to the
    reference; it returns an ambiguity error naming the reference when the
    binding is the ambiguity flag, and nil without error when there is no
    binding. When the loader failed, every lookup returns its error. *)
Theorem getFromCache_binding :
  ∀ c ref,
    match loader (pageIndex c) tt with
    | (m, None) =>
        getFromCache c ref
        = match m !! ref with
          | None => (None, None)
          | Some p =>
              if bool_decide (p = ambiguityFlag)
              then (None, Some (ErrAmbiguous ref))
              else (Some p, None)
          end
    | (_, Some e) => getFromCache c ref = (None, Some e)
    end.
Proof.
  intros c ref. unfold getFromCache, Get.
  destruct (loader (pageIndex c) tt) as [m [e|]]; [done|].
  destruct (m !! ref) as [p|] eqn:E.
  - rewrite bool_decide_eq_true_2 by eauto. cbn [negb].
    destruct (decide (p = ambiguityFlag)) as [->|Hne].
    + rewrite bool_decide_eq_false_2 by tauto.
      by rewrite bool_decide_eq_true_2.
    + rewrite bool_decide_eq_true_2 by done.
      by rewrite bool_decide_eq_false_2.
  - by rewrite bool_decide_eq_false_2 by (intros [? ?]; done).
Qed.

(** The page of a successful lookup is bound to the key and is not the
    ambiguity flag. *)
Lemma getFromCache_hit c key p m :
  loader (pageIndex c) tt = (m, None) →
  getFromCache c key = (Some p, None) →
  m !! key = Some p ∧ p ≠ ambiguityFlag.
Proof.
  intros Hl. pose proof (getFromCache_binding c key) as H. rewrite Hl in H.
  rewrite H. destruct (m !! key) as [q|]; [|done].
  destruct (decide (q = ambiguityFlag)) as [->|Hne].
  - by rewrite bool_decide_eq_true_2.
  - rewrite bool_decide_eq_false_2 by done. by intros [= ->].
Qed.

Lemma firstHit_Some c (keys : list string) p :
  spec.firstHit c keys = Some p →
  ∃ key, key ∈ keys ∧ getFromCache c key = (Some p, None).
Proof.
  induction keys as [|key keys IH]; [done|]. cbn [spec.firstHit].
  destruct (getFromCache c key) as [[q|] [e|]] eqn:E; intros H;
    try (destruct (IH H) as (k & Hk & Hg); exists k; split;
         [by right | done]).
  simplify_eq. exists key. split; [by left | done].
Qed.

(** The page that [getPageNew] returns is that of the first successful
    lookup. *)
Lemma getPageNew_page c context ref :
  fst (getPageNew c context ref)
  = spec.firstHit c (spec.lookupOrder context ref).
Proof.
  unfold getPageNew, spec.lookupOrder.
  destruct (strings.HasPrefix ref "/"); cbn [negb app spec.firstHit];
    [lookup_cases c ref; cbn [fst snd]; try done|];
    (destruct context as [ctx|]; cbn [app spec.firstHit];
     [lookup_cases c (path.Join ["/"; strings.Join (sections ctx) "/"; ref]);
      cbn [fst snd]; try done|]);
    try (lookup_cases c ("/" ++ ref)%string; cbn [fst snd]; try done);
    lookup_cases c (strings.TrimPrefix ref "/"); cbn [fst snd]; done.
Qed.

(** X5. A page returned by [getPageNew] is never the ambiguity flag: it is
    the page bound in the index to one of the keys that were looked up. *)
Theorem getPageNew_returns_bound_page :
  ∀ c context ref p m,
    loader (pageIndex c) tt = (m, None) →
    fst (getPageNew c context ref) = Some p →
    p ≠ ambiguityFlag
    ∧ ∃ key, key ∈ spec.lookupOrder context ref ∧ m !! key = Some p.
Proof.
  intros c context ref p m Hl Hp. rewrite getPageNew_page in Hp.
  destruct (firstHit_Some _ _ _ Hp) as (key & Hin & Hg).
  destruct (getFromCache_hit c key p m Hl Hg) as [Hm Hne].
  split; [done|]. by exists key.
Qed.

Lemma getPageNew_returns_bound_page_witness :
  loader (pageIndex examples.collections) tt
    = (fst (loader (pageIndex examples.collections) tt), None)
  ∧ fst (getPageNew examples.collections (Some examples.pageB) "a.md")
    = Some examples.pageB
  ∧ examples.pageB ≠ ambiguityFlag
  ∧ ∃ key, key ∈ spec.lookupOrder (Some examples.pageB) "a.md"
           ∧ fst (loader (pageIndex examples.collections) tt) !! key
             = Some examples.pageB.
Proof.
  assert (H1 : loader (pageIndex examples.collections) tt
               = (fst (loader (pageIndex examples.collections) tt), None))
    by exact (refreshPageCaches_loader _).
  assert (H2 : fst (getPageNew examples.collections (Some examples.pageB)
                      "a.md") = Some examples.pageB)
    by (vm_compute; reflexivity).
  split; [exact H1|]. split; [exact H2|].
  exact (getPageNew_returns_bound_page examples.collections
           (Some examples.pageB) "a.md" examples.pageB _ H1 H2).
Defined.

(** X6. [getPageNew] returns an error exactly when no lookup finds a page
    and the last lookup, of the reference without its leading slash, fails.
    The error is then "failed to resolve page" around the error of that
    lookup; the variant that names the context page is never produced, and
    an ambiguity met by an earlier lookup is not reported. *)
Theorem getPageNew_error_iff :
  ∀ c context ref e,
    snd (getPageNew c context ref) = Some e
    ↔ spec.firstHit c (spec.lookupOrder context ref) = None
      ∧ ∃ cause, e = ErrResolve cause
                 ∧ snd (getFromCache c (strings.TrimPrefix ref "/"))
                   = Some cause.
Proof.
  intros c context ref e. unfold getPageNew, spec.lookupOrder.
  destruct (strings.HasPrefix ref "/"); cbn [negb app spec.firstHit];
    [lookup_cases c ref; cbn [fst snd]|];
    (destruct context as [ctx|]; cbn [app spec.firstHit];
     [lookup_cases c (path.Join ["/"; strings.Join (sections ctx) "/"; ref]);
      cbn [fst snd]|]);
    try (lookup_cases c ("/" ++ ref)%string; cbn [fst snd]);
    try (lookup_cases c (strings.TrimPrefix ref "/"); cbn [fst snd]);
    naive_solver.
Qed.

Lemma substring_all (x : string) : substring 0 (String.length x) x = x.
Proof. induction x as [|ch x IH]; [done|]. cbn. by rewrite IH. Qed.

Lemma HasPrefix_slash (x : string) :
  strings.HasPrefix ("/" ++ x) "/" = true.
Proof.
  unfold strings.HasPrefix. apply String.prefix_correct.
  change ("/" ++ x)%string with (String "/" x). cbn. by destruct x.
Qed.

Lemma TrimPrefix_slash (x : string) : strings.TrimPrefix ("/" ++ x) "/" = x.
Proof.
  unfold strings.TrimPrefix. rewrite HasPrefix_slash.
  change ("/" ++ x)%string with (String "/" x).
  replace (String.length (String "/" x) - String.length "/")
    with (String.length x) by (cbn; lia).
  cbn [String.length substring]. apply substring_all.
Qed.

(** X7. [getPage] looks up the sections joined into an absolute path, then
    the same path without its leading slash, and returns the first page
    found; its first argument plays no part, and an ambiguous path gives
    nil. *)
Theorem getPage_lookups :
  ∀ c (typ : string) (sections : list string),
    getPage c typ sections
    = spec.firstHit c
        [("/" ++ path.Join sections)%string; path.Join sections].
Proof.
  intros c typ sections. unfold getPage. rewrite getPageNew_page.
  unfold spec.lookupOrder.
  by rewrite HasPrefix_slash, TrimPrefix_slash.
Qed.

(** X8. [findPagesByKindIn] and [findPagesByKindNotIn] split the pages in
    two, each part in the order of the pages: a page is in the first part
    exactly when it has the kind, their lengths add up, and
    [findFirstPageByKindIn] is the head of the first part. *)
Theorem findPagesByKind_partition :
  ∀ (kind : string) (inPages : Pages),
    findPagesByKindIn kind inPages
    = List.filter (fun p => String.eqb (Kind p) kind) inPages
    ∧ findPagesByKindNotIn kind inPages
      = List.filter (fun p => negb (String.eqb (Kind p) kind)) inPages
    ∧ length (findPagesByKindIn kind inPages)
      + length (findPagesByKindNotIn kind inPages) = length inPages
    ∧ findFirstPageByKindIn kind inPages
      = head (findPagesByKindIn kind inPages).
Proof.
  intros kind inPages.
  assert (H1 : findPagesByKindIn kind inPages
               = List.filter (fun p => String.eqb (Kind p) kind) inPages).
  { unfold findPagesByKindIn.
    rewrite (fold_left_append_if (fun p => String.eqb (Kind p) kind) id).
    by rewrite map_id. }
  assert (H2 : findPagesByKindNotIn kind inPages
               = List.filter (fun p => negb (String.eqb (Kind p) kind))
                             inPages).
  { unfold findPagesByKindNotIn.
    rewrite (fold_left_append_if
               (fun p => negb (String.eqb (Kind p) kind)) id).
    by rewrite map_id. }
  split; [exact H1|]. split; [exact H2|]. rewrite H1, H2. split.
  - apply List.filter_length.
  - unfold findFirstPageByKindIn. clear H1 H2.
    induction inPages as [|p l IH]; [done|]. simpl.
    destruct (String.eqb (Kind p) kind); [done | exact IH].
Qed.

End LookupsMore.

(* ===================================================================== *)
(** ** More on the layout cascade                                        *)
(* ===================================================================== *)

Section LayoutsMore.
Import output.


















(** White space in the section name breaks the candidates apart: the
    section "my posts" gives 18 candidates for kind section, not 12. *)
Example For_section_with_space :
  length (For (NewLayoutHandler false)
              (mkLayoutIdentifier "" "my posts" "section" "") ""
              (mkType "HTML" (mkMediaType "html"))) = 18.
Proof. vm_compute. reflexivity. Qed.

Lemma levels_length (t : list string) : length (spec.levels t) = length t.
Proof.
  unfold spec.levels. rewrite length_rev.
  induction t as [|x t IH]; [done|]. cbn. by rewrite length_map, IH.
Qed.

Lemma flat_map_two_length {A B : Type} (f : A → list B) (l : list A) :
  (∀ x, length (f x) = 2) → length (flat_map f l) = 2 * length l.
Proof.
  intros Hf. induction l as [|x l IH]; [done|]. cbn [flat_map].
  rewrite length_app, Hf, IH. cbn [length]. lia.
Qed.

(** X10. The candidates of kind "page" are never none: there are two for
    each element of the type path and two [_default] ones, which come last;
    with an empty type path only the two [_default] ones. *)
Theorem regularPageLayouts_count :
  ∀ (types layout : string) (tp : Type_),
    let layout' := if String.eqb layout "" then "single" else layout in
    let defaults :=
      [ sprintf4 "_default" layout' (strings.ToLower (Name tp))
                 (Suffix (MediaType tp));
        sprintf3 "_default" layout' (Suffix (MediaType tp)) ] in
    (∃ own, regularPageLayouts types layout tp = own ++ defaults)
    ∧ length (regularPageLayouts types layout tp)
      = if String.eqb types "" then 2
        else 2 * length (strings.Split types "/") + 2.
Proof.
  intros types layout tp layout' defaults. subst layout' defaults.
  rewrite regularPageLayouts_cascade. unfold spec.pageCascade. cbv zeta.
  split; [by eexists|].
  rewrite length_app. destruct (String.eqb types ""); [done|].
  rewrite flat_map_two_length by done. rewrite levels_length. cbn. lia.
Qed.

End LayoutsMore.

(* ===================================================================== *)
(** ** More on the template identifier pass                              *)
(* ===================================================================== *)

Section TemplateMore.
Import tpl.

Implicit Types (d : decl) (idents resolved words pre rest : list string).

(** X11. [sliceStartsWith] holds exactly of the slices that begin with the
    words, in their order; in particular of no slice shorter than the words. *)
Theorem sliceStartsWith_is_prefix :
  ∀ (slice words : list string),
    sliceStartsWith slice words = true ↔ ∃ tl, slice = words ++ tl.
Proof. intros slice words. apply sliceStartsWith_prefix. Qed.

Lemma passedOver_test words (x : string) :
  (String.eqb x "" || startsWithDollar x = true
   ∨ existsb (fun word => String.eqb x word) words = true)
  ↔ spec.passedOver words x.
Proof.
  unfold spec.passedOver. rewrite orb_true_iff, String.eqb_eq.
  rewrite existsb_eqb_elem_of. tauto.
Qed.

Lemma firstRealIdent_cases words (i : Z) idents :
  (firstRealIdent words i idents = (-1)%Z
   ∧ Forall (spec.passedOver words) idents)
  ∨ (∃ pre x rest,
        idents = pre ++ x :: rest
        ∧ Forall (spec.passedOver words) pre
        ∧ ¬ spec.passedOver words x
        ∧ firstRealIdent words i idents = (i + Z.of_nat (length pre))%Z).
Proof.
  revert i. induction idents as [|x idents IH]; intros i.
  - left. by split.
  - destruct (decide (spec.passedOver words x)) as [Hx|Hx].
    + assert (Hstep : firstRealIdent words i (x :: idents)
                      = firstRealIdent words (i + 1) idents).
      { apply (firstRealIdent_passed words [x] idents i). by constructor. }
      rewrite Hstep.
      destruct (IH (i + 1)%Z) as [[Hr Hall]|(pre & y & rest & -> & Hp & Hy & Hr)].
      * left. split; [done | by constructor].
      * right. exists (x :: pre), y, rest. split; [done|].
        split; [by constructor|]. split; [done|].
        rewrite Hr. cbn [length]. lia.
    + right. exists [], x, idents. split; [done|]. split; [constructor|].
      split; [done|]. rewrite (firstRealIdent_real words x idents i Hx).
      cbn. lia.
Qed.

(** X12. [indexOfFirstRealIdentAfterWords] returns the position of the first
    segment of the identifier that is neither empty, nor a [$]-variable, nor
    one of the words; it returns -1 when the resolved identifier does not
    start with the words or when there is no such segment. *)
Theorem indexOfFirstRealIdentAfterWords_meaning :
  ∀ resolved idents words,
    (indexOfFirstRealIdentAfterWords resolved idents words = (-1)%Z
     ∧ (sliceStartsWith resolved words = false
        ∨ Forall (spec.passedOver words) idents))
    ∨ (∃ pre x rest,
          sliceStartsWith resolved words = true
          ∧ idents = pre ++ x :: rest
          ∧ Forall (spec.passedOver words) pre
          ∧ ¬ spec.passedOver words x
          ∧ indexOfFirstRealIdentAfterWords resolved idents words
            = Z.of_nat (length pre)).
Proof.
  intros resolved idents words. unfold indexOfFirstRealIdentAfterWords.
  destruct (sliceStartsWith resolved words); cbn [negb]; [|left; auto].
  destruct (firstRealIdent_cases words 0 idents)
    as [[Hr Hall]|(pre & x & rest & -> & Hp & Hx & Hr)].
  - left. auto.
  - right. exists pre, x, rest. rewrite Hr. repeat split; auto.
Qed.

Lemma firstParamsPath_cases resolved idents (paths : list (list string)) :
  firstParamsPath resolved idents paths = (-1)%Z
  ∨ (∃ words pre x rest,
        idents = pre ++ x :: rest
        ∧ Forall (spec.passedOver words) pre
        ∧ ¬ spec.passedOver words x
        ∧ firstParamsPath resolved idents paths = Z.of_nat (length pre)).
Proof.
  induction paths as [|words paths IH]; [by left|].
  cbn [firstParamsPath].
  destruct (indexOfFirstRealIdentAfterWords_meaning resolved idents words)
    as [[Hr _]|(pre & x & rest & _ & Heq & Hp & Hx & Hr)].
  - rewrite Hr. cbn. exact IH.
  - rewrite Hr. destruct (Z.of_nat (length pre) =? -1)%Z eqn:E; [lia|].
    cbn [negb]. right. by exists words, pre, x, rest.
Qed.

Lemma updateIdentsIfNeeded_lowers_a_suffix_aux :
  ∀ (fuel : nat) d idents (result : list string),
    updateIdentsIfNeeded fuel d idents = Ok result →
    (∃ pre rest,
        idents = pre ++ rest ∧ result = pre ++ map strings.ToLower rest)
    ∧ length result = length idents
    ∧ (∀ x, head idents = Some x → startsWithDollar x = true →
            head result = Some x).
Proof.
  intros fuel d idents result H.
  assert (Hsplit : ∃ pre rest,
             idents = pre ++ rest ∧ result = pre ++ map strings.ToLower rest
             ∧ (∀ x, head idents = Some x → startsWithDollar x = true →
                     head pre = Some x ∨ rest = [])).
  { unfold updateIdentsIfNeeded in H.
    apply obind_Ok_inv in H as (index & Hi & H).
    unfold indexOfReplacementStart in Hi.
    apply obind_Ok_inv in Hi as (r & _ & Hi).
    destruct r as [resolved|];
      [ assert (index = firstParamsPath resolved idents paramsPaths) as ->
          by congruence
      | assert (index = (-1)%Z) as -> by congruence ]; clear Hi.
    - destruct (firstParamsPath_cases resolved idents paramsPaths)
        as [Hr|(words & pre & x & rest & -> & Hp & Hx & Hr)].
      + rewrite Hr in H. injection H as <-.
        exists idents, []. cbn [map]. rewrite app_nil_r. auto.
      + rewrite Hr in H.
        destruct (Z.of_nat (length pre) =? -1)%Z eqn:E; [lia|].
        injection H as <-. exists pre, (x :: rest). split; [done|]. split.
        * rewrite Nat2Z.id.
          replace (length (pre ++ x :: rest) - length pre)%nat
            with (length (x :: rest)) by (rewrite length_app; lia).
          apply lower_from.
        * intros y Hy Hd. left. destruct pre as [|z pre]; [|done].
          cbn in Hy. simplify_eq. destruct Hx. right. by left.
    - injection H as <-. exists idents, []. cbn [map]. rewrite app_nil_r.
      auto. }
  destruct Hsplit as (pre & rest & -> & -> & Hhead).
  split; [by exists pre, rest|]. split.
  - by rewrite !length_app, length_map.
  - intros x Hx Hd. destruct (Hhead x Hx Hd) as [Hp| ->].
    + destruct pre; [done|]. exact Hp.
    + by rewrite app_nil_r in *.
Qed.

(** X13. [updateIdentsIfNeeded] changes nothing but the case of the last
    segments of an identifier: its result is the identifier with some suffix
    in lower case, of the same length, and a [$]-variable at the head of the
    identifier is never changed. *)
Theorem updateIdentsIfNeeded_lowers_a_suffix :
  ∀ (fuel : nat) d idents (result : list string),
    updateIdentsIfNeeded fuel d idents = Ok result →
    (∃ pre rest,
        idents = pre ++ rest ∧ result = pre ++ map strings.ToLower rest)
    ∧ length result = length idents
    ∧ (∀ x, head idents = Some x → startsWithDollar x = true →
            head result = Some x).
Proof. exact updateIdentsIfNeeded_lowers_a_suffix_aux. Qed.

Lemma updateIdentsIfNeeded_lowers_a_suffix_witness :
  updateIdentsIfNeeded 2 (<["$p" := ".Params"]> ∅) ["$p"; "MyKey"; "Sub"]
    = Ok ["$p"; "mykey"; "sub"]
  ∧ (∃ pre rest,
        ["$p"; "MyKey"; "Sub"] = pre ++ rest
        ∧ ["$p"; "mykey"; "sub"] = pre ++ map strings.ToLower rest)
  ∧ length ["$p"; "mykey"; "sub"] = length ["$p"; "MyKey"; "Sub"]
  ∧ (∀ x, head ["$p"; "MyKey"; "Sub"] = Some x →
          startsWithDollar x = true →
          head ["$p"; "mykey"; "sub"] = Some x).
Proof.
  assert (H : updateIdentsIfNeeded 2 (<["$p" := ".Params"]> ∅)
                ["$p"; "MyKey"; "Sub"] = Ok ["$p"; "mykey"; "sub"])
    by (vm_compute; reflexivity).
  split; [exact H|].
  exact (updateIdentsIfNeeded_lowers_a_suffix 2 _ _ _ H).
Defined.

Lemma startsWithDollar_inv (x : string) :
  startsWithDollar x = true → ∃ tl, x = String "$" tl.
Proof.
  destruct x as [|ch tl]; [done|]. cbn. intros H%Ascii.eqb_eq. subst.
  by exists tl.
Qed.

Lemma dollar_not_dot (x : string) :
  startsWithDollar x = true → strings.TrimPrefix x "." = x.
Proof.
  intros [tl ->]%startsWithDollar_inv.
  unfold strings.TrimPrefix, strings.HasPrefix. cbn [String.prefix].
  by destruct (ascii_dec "." "$").
Qed.

(** The first iteration of the resolution loop on a [$]-variable. *)
Lemma resolveLoop_variable (fuel : nat) d (x : string)
  (replacements replaced : list string) (i : nat) :
  replacements !! i = Some x → startsWithDollar x = true → x ≠ "$" →
  resolveLoop (S fuel) d replacements i replaced
  = match d !! x with
    | None => Ok None
    | Some replacement =>
        let replacement := strings.TrimPrefix replacement "." in
        if String.eqb replacement "" then
          resolveLoop fuel d replacements (S i) replaced
        else if startsWithDollar replacement then
          resolveLoop fuel d (replacements ++ strings.Split replacement ".")
            (S i) replaced
        else
          resolveLoop fuel d replacements (S i)
            (replaced ++ strings.Split replacement ".")
    end.
Proof.
  intros Hi Hd Hne. cbn [resolveLoop]. rewrite Hi.
  rewrite (proj2 (String.eqb_neq x "$")) by done.
  destruct (startsWithDollar_inv x Hd) as [tl ->].
  rewrite Hd. reflexivity.
Qed.

(** X14. An identifier whose first segment starts with a [$]-variable that
    was never declared (a range variable, say) is left as it is. *)
Theorem updateIdentsIfNeeded_unknown_variable :
  ∀ (fuel : nat) d (v x : string) (rest xs : list string),
    strings.Split v "." = x :: xs →
    startsWithDollar x = true → x ≠ "$" → d !! x = None →
    updateIdentsIfNeeded (S fuel) d (v :: rest) = Ok (v :: rest).
Proof.
  intros fuel d v x rest xs Hsplit Hd Hne Hx.
  unfold updateIdentsIfNeeded, indexOfReplacementStart, resolvedIdents.
  rewrite Hsplit.
  rewrite (resolveLoop_variable fuel d x (x :: xs) [] 0) by done.
  rewrite Hx. by rewrite !bind_Ok.
Qed.

Lemma updateIdentsIfNeeded_unknown_variable_witness :
  strings.Split "$element.Title" "." = ["$element"; "Title"]
  ∧ startsWithDollar "$element" = true
  ∧ "$element" ≠ "$"
  ∧ (<["$p" := ".Params"]> ∅ : gmap string string) !! "$element" = None
  ∧ updateIdentsIfNeeded 1 (<["$p" := ".Params"]> ∅)
      ["$element.Title"; "Params"; "Color"]
    = Ok ["$element.Title"; "Params"; "Color"].
Proof.
  assert (H1 : strings.Split "$element.Title" "." = ["$element"; "Title"])
    by (vm_compute; reflexivity).
  assert (H2 : startsWithDollar "$element" = true) by reflexivity.
  assert (H3 : "$element" ≠ "$") by discriminate.
  assert (H4 : (<["$p" := ".Params"]> ∅ : gmap string string) !! "$element"
               = None) by (vm_compute; reflexivity).
  split; [exact H1|]. split; [exact H2|]. split; [exact H3|].
  split; [exact H4|].
  exact (updateIdentsIfNeeded_unknown_variable 0 _ _ _
           ["Params"; "Color"] _ H1 H2 H3 H4).
Defined.

Lemma resolveLoop_self_alias_any d (v : string) :
  d !! v = Some v → startsWithDollar v = true → v ≠ "$" →
  strings.Split v "." = [v] →
  ∀ (fuel i : nat) (replacements replaced : list string),
    (∀ j, (i ≤ j)%nat → j < length replacements →
          replacements !! j = Some v) →
    i < length replacements →
    resolveLoop fuel d replacements i replaced = OutOfFuel.
Proof.
  intros Hv Hd Hne Hsplit fuel.
  induction fuel as [|fuel IH]; intros i replacements replaced Hall Hi;
    [done|].
  rewrite (resolveLoop_variable fuel d v replacements replaced i)
    by (done || (apply Hall; lia)).
  rewrite Hv. cbv zeta. rewrite (dollar_not_dot v Hd), Hd, Hsplit.
  destruct (startsWithDollar_inv v Hd) as [tl Heq].
  rewrite (proj2 (String.eqb_neq v "")) by (rewrite Heq; discriminate).
  apply IH.
  - intros j Hj Hlen. rewrite length_app in Hlen. cbn in Hlen.
    destruct (decide (j < length replacements)) as [Hlt|Hge].
    + rewrite lookup_app_l by done. apply Hall; lia.
    + assert (j = length replacements) as -> by lia.
      by rewrite list_lookup_middle.
  - rewrite length_app. cbn. lia.
Qed.

(** X15. A variable declared as itself (after [{{ $a := $a }}]) is resolved
    without end: on an identifier that starts with it, the pass does not
    return, whatever the number of iterations allowed. *)
Theorem updateIdentsIfNeeded_self_alias_diverges :
  ∀ (fuel : nat) d (v : string) (rest : list string),
    d !! v = Some v → startsWithDollar v = true → v ≠ "$" →
    strings.Split v "." = [v] →
    updateIdentsIfNeeded fuel d (v :: rest) = OutOfFuel.
Proof.
  intros fuel d v rest Hv Hd Hne Hsplit.
  unfold updateIdentsIfNeeded, indexOfReplacementStart, resolvedIdents.
  rewrite Hsplit.
  rewrite (resolveLoop_self_alias_any d v Hv Hd Hne Hsplit fuel 0 [v] []).
  - reflexivity.
  - intros [|j] _ Hj; [done | cbn in Hj; lia].
  - cbn. lia.
Qed.

Lemma updateIdentsIfNeeded_self_alias_diverges_witness :
  (<["$a" := "$a"]> ∅ : gmap string string) !! "$a" = Some "$a"
  ∧ startsWithDollar "$a" = true
  ∧ "$a" ≠ "$"
  ∧ strings.Split "$a" "." = ["$a"]
  ∧ updateIdentsIfNeeded 1000 (<["$a" := "$a"]> ∅) ["$a"; "Title"]
    = OutOfFuel.
Proof.
  assert (H1 : (<["$a" := "$a"]> ∅ : gmap string string) !! "$a"
               = Some "$a") by apply lookup_insert_eq.
  assert (H2 : startsWithDollar "$a" = true) by reflexivity.
  assert (H3 : "$a" ≠ "$") by discriminate.
  assert (H4 : strings.Split "$a" "." = ["$a"]) by (vm_compute; reflexivity).
  split; [exact H1|]. split; [exact H2|]. split; [exact H3|].
  split; [exact H4|].
  exact (updateIdentsIfNeeded_self_alias_diverges 1000 _ "$a" ["Title"]
           H1 H2 H3 H4).
Defined.

Lemma resolveLoop_returns d :
  (∀ k v, d !! k = Some v →
          startsWithDollar (strings.TrimPrefix v ".") = false) →
  ∀ (fuel i : nat) (replacements replaced : list string),
    length replacements - i < fuel →
    ∃ r, resolveLoop fuel d replacements i replaced = Ok r.
Proof.
  intros Hd fuel.
  induction fuel as [|fuel IH]; intros i replacements replaced Hlen; [lia|].
  cbn [resolveLoop].
  destruct (replacements !! i) as [x|] eqn:Hx; [|by eexists].
  apply lookup_lt_Some in Hx.
  assert (Hnext : length replacements - S i < fuel) by lia.
  destruct (String.eqb x "$"); [by apply IH|].
  destruct (_ || _); [by apply IH|].
  destruct (d !! x) as [v|] eqn:Hv; [|by eexists].
  destruct (String.eqb _ ""); [by apply IH|].
  rewrite (Hd x v Hv). by apply IH.
Qed.

(** X16. When no declared variable stands for another variable, the
    resolution of an identifier ends: the pass returns as soon as it is
    allowed more iterations than the first segment has dotted parts. *)
Theorem updateIdentsIfNeeded_returns :
  ∀ (fuel : nat) d idents,
    (∀ k v, d !! k = Some v →
            startsWithDollar (strings.TrimPrefix v ".") = false) →
    length (strings.Split (default "" (head idents)) ".") < fuel →
    ∃ result, updateIdentsIfNeeded fuel d idents = Ok result.
Proof.
  intros fuel d idents Hd Hfuel.
  unfold updateIdentsIfNeeded, indexOfReplacementStart, resolvedIdents.
  destruct idents as [|ident0 rest]; [by eexists|].
  change (length (strings.Split ident0 ".") < fuel) in Hfuel.
  destruct (resolveLoop_returns d Hd fuel 0 (strings.Split ident0 ".") [])
    as [r ->]; [lia|].
  rewrite bind_Ok. destruct r as [replaced|]; rewrite !bind_Ok.
  - destruct (_ =? _)%Z; by eexists.
  - by eexists.
Qed.

Lemma updateIdentsIfNeeded_returns_witness :
  (∀ k v, (<["$p" := ".Params"]> ∅ : gmap string string) !! k = Some v →
          startsWithDollar (strings.TrimPrefix v ".") = false)
  ∧ length (strings.Split (default "" (head ["$p.Colors"; "Blue"])) ".") < 3
  ∧ ∃ result,
      updateIdentsIfNeeded 3 (<["$p" := ".Params"]> ∅) ["$p.Colors"; "Blue"]
      = Ok result.
Proof.
  assert (H1 : ∀ k v,
             (<["$p" := ".Params"]> ∅ : gmap string string) !! k = Some v →
             startsWithDollar (strings.TrimPrefix v ".") = false).
  { intros k v. rewrite lookup_insert. case_decide; [|by rewrite lookup_empty].
    by intros [= <-]. }
  assert (H2 : length (strings.Split
                         (default "" (head ["$p.Colors"; "Blue"])) ".") < 3)
    by (vm_compute; repeat constructor).
  split; [exact H1|]. split; [exact H2|].
  exact (updateIdentsIfNeeded_returns 3 _ _ H1 H2).
Defined.

Lemma lower_byte_idemp (ch : ascii) :
  strings.lower_byte (strings.lower_byte ch) = strings.lower_byte ch.
Proof. by destruct ch as [[] [] [] [] [] [] [] []]. Qed.

Lemma ToLower_idemp (x : string) :
  strings.ToLower (strings.ToLower x) = strings.ToLower x.
Proof.
  induction x as [|ch x IH]; [done|]. cbn. by rewrite lower_byte_idemp, IH.
Qed.

Lemma updateIdentsIfNeeded_caseless (fuel : nat) d idents result :
  updateIdentsIfNeeded fuel d idents = Ok result →
  map strings.ToLower result = map strings.ToLower idents.
Proof.
  intros H.
  destruct (updateIdentsIfNeeded_lowers_a_suffix_aux fuel d idents result H)
    as [(pre & rest & -> & ->) _].
  rewrite !map_app, map_map. f_equal. apply map_ext. intros x.
  apply ToLower_idemp.
Qed.

Lemma updateArgs_caseless (fuel : nat) d (Args Args' : list Node) :
  updateArgs fuel d Args = Ok Args' →
  map spec.lowered Args' = map spec.lowered Args.
Proof.
  revert Args'. induction Args as [|elem Args IH]; intros Args' H.
  - cbn in H. by injection H as <-.
  - cbn [updateArgs] in H.
    apply obind_Ok_inv in H as (elem' & He & H).
    apply obind_Ok_inv in H as (more' & Hm & H). injection H as <-.
    cbn [map]. rewrite (IH more' Hm). f_equal.
    destruct elem; try (by injection He as <-).
    + apply obind_Ok_inv in He as (Ident' & Hu & He). injection He as <-.
      cbn. by rewrite (updateIdentsIfNeeded_caseless _ _ _ _ Hu).
    + apply obind_Ok_inv in He as (Ident' & Hu & He). injection He as <-.
      cbn. by rewrite (updateIdentsIfNeeded_caseless _ _ _ _ Hu).
Qed.

Lemma sameTemplates_refl (t : gmap string Node) : spec.sameTemplates t t.
Proof. by intros name. Qed.

Lemma sameTemplates_trans (t1 t2 t3 : gmap string Node) :
  spec.sameTemplates t1 t2 → spec.sameTemplates t2 t3 →
  spec.sameTemplates t1 t3.
Proof. intros H1 H2 name. by rewrite H1. Qed.

Lemma walkNodes_caseless walk (c c' : templateContext) (ns ns' : list Node) :
  spec.keepsCase walk →
  walkNodes walk c ns = Ok (c', ns') →
  map spec.lowered ns' = map spec.lowered ns
  ∧ spec.sameTemplates (templ c') (templ c).
Proof.
  intros Hwalk. revert c c' ns'.
  induction ns as [|n ns IH]; intros c c' ns' H.
  - cbn in H. injection H as <- <-. split; [done | apply sameTemplates_refl].
  - cbn [walkNodes] in H.
    apply obind_Ok_inv in H as ([c1 n1] & H1 & H).
    apply obind_Ok_inv in H as ([c2 ns2] & H2 & H). injection H as <- <-.
    destruct (Hwalk _ _ _ _ H1) as [Hn Hs1].
    destruct (IH _ _ _ H2) as [Hns Hs2].
    split; [cbn [map]; by rewrite Hn, Hns|].
    by apply (sameTemplates_trans _ (templ c1)).
Qed.

Lemma paramsKeysToLower_keepsCase (fuel : nat) :
  spec.keepsCase (paramsKeysToLower fuel).
Proof.
  induction fuel as [|fuel IH]; intros c n c' n' H; [done|].
  cbn [paramsKeysToLower] in H.
  destruct n; try (injection H as <- <-; split;
                   [done | apply sameTemplates_refl]).
  - apply obind_Ok_inv in H as ([c1 ms1] & H1 & H). injection H as <- <-.
    destruct (walkNodes_caseless _ _ _ _ _ IH H1) as [Hn Hs].
    split; [cbn; by rewrite Hn | done].
  - apply obind_Ok_inv in H as ([c1 m1] & H1 & H). injection H as <- <-.
    destruct (IH _ _ _ _ H1) as [Hn Hs]. split; [cbn; by rewrite Hn | done].
  - apply obind_Ok_inv in H as ([c1 m1] & H1 & H).
    apply obind_Ok_inv in H as ([c2 m2] & H2 & H).
    apply obind_Ok_inv in H as ([c3 m3] & H3 & H). injection H as <- <-.
    destruct (IH _ _ _ _ H1) as [Hn1 Hs1], (IH _ _ _ _ H2) as [Hn2 Hs2],
      (IH _ _ _ _ H3) as [Hn3 Hs3].
    split; [cbn; by rewrite Hn1, Hn2, Hn3|].
    eapply sameTemplates_trans; [exact Hs3|].
    eapply sameTemplates_trans; [exact Hs2 | exact Hs1].
  - apply obind_Ok_inv in H as ([c1 m1] & H1 & H).
    apply obind_Ok_inv in H as ([c2 m2] & H2 & H).
    apply obind_Ok_inv in H as ([c3 m3] & H3 & H). injection H as <- <-.
    destruct (IH _ _ _ _ H1) as [Hn1 Hs1], (IH _ _ _ _ H2) as [Hn2 Hs2],
      (IH _ _ _ _ H3) as [Hn3 Hs3].
    split; [cbn; by rewrite Hn1, Hn2, Hn3|].
    eapply sameTemplates_trans; [exact Hs3|].
    eapply sameTemplates_trans; [exact Hs2 | exact Hs1].
  - apply obind_Ok_inv in H as ([c1 m1] & H1 & H).
    apply obind_Ok_inv in H as ([c2 m2] & H2 & H).
    apply obind_Ok_inv in H as ([c3 m3] & H3 & H). injection H as <- <-.
    destruct (IH _ _ _ _ H1) as [Hn1 Hs1], (IH _ _ _ _ H2) as [Hn2 Hs2],
      (IH _ _ _ _ H3) as [Hn3 Hs3].
    split; [cbn; by rewrite Hn1, Hn2, Hn3|].
    eapply sameTemplates_trans; [exact Hs3|].
    eapply sameTemplates_trans; [exact Hs2 | exact Hs1].
  - destruct (templ c !! Name) as [root|] eqn:Hroot.
    + apply obind_Ok_inv in H as ([c1 root'] & H1 & H). injection H as <- <-.
      destruct (IH _ _ _ _ H1) as [Hn Hs]. split; [done|].
      intros name. cbn [templ]. rewrite lookup_insert.
      case_decide as Hname; [|apply Hs]. subst name.
      rewrite Hroot. cbn. by rewrite Hn.
    + injection H as <- <-. split; [done | apply sameTemplates_refl].
  - apply obind_Ok_inv in H as (d' & Hd & H).
    apply obind_Ok_inv in H as ([c1 ms1] & H1 & H). injection H as <- <-.
    destruct (walkNodes_caseless _ _ _ _ _ IH H1) as [Hn Hs].
    split; [cbn; by rewrite Hn | done].
  - apply obind_Ok_inv in H as (Args' & Ha & H). injection H as <- <-.
    split; [|apply sameTemplates_refl].
    cbn. by rewrite (updateArgs_caseless _ _ _ _ Ha).
Qed.

(** X17. The pass changes nothing but the case of identifiers: when
    [paramsKeysToLower] returns, the node it returns and every template of
    the set are the ones it was given up to the case of the segments of
    field and variable identifiers. *)
Theorem paramsKeysToLower_only_changes_case :
  ∀ (fuel : nat) (c c' : templateContext) (n n' : Node),
    paramsKeysToLower fuel c n = Ok (c', n') →
    spec.lowered n' = spec.lowered n
    ∧ spec.sameTemplates (templ c') (templ c).
Proof. intros fuel c c' n n'. apply paramsKeysToLower_keepsCase. Qed.

Lemma paramsKeysToLower_only_changes_case_witness :
  paramsKeysToLower 6 (mkTemplateContext ∅ ∅) examples.paramsAlias
    = Ok (mkTemplateContext (<["$p" := ".Params"]> ∅) ∅,
          examples.paramsAliasLowered)
  ∧ spec.lowered examples.paramsAliasLowered
    = spec.lowered examples.paramsAlias
  ∧ spec.sameTemplates (∅ : gmap string Node) ∅.
Proof.
  assert (H : paramsKeysToLower 6 (mkTemplateContext ∅ ∅) examples.paramsAlias
              = Ok (mkTemplateContext (<["$p" := ".Params"]> ∅) ∅,
                    examples.paramsAliasLowered))
    by (vm_compute; reflexivity).
  split; [exact H|].
  exact (paramsKeysToLower_only_changes_case 6 _ _ _ _ H).
Defined.

End TemplateMore.


(* ===================================================================== *)
(** ** The build: metadata, rendering and writing                        *)
(* ===================================================================== *)

Section SiteMore.
Import site.
Context {external : External} {engine : Engine}.

Implicit Types (s : Site) (st : state) (p : Page).

Lemma indexPages_outcome (plural : string) (pages : Pages)
  (x : gmap string (list Page)) :
  (indexPages plural pages x = Panic
   ∧ ∃ p, p ∈ pages ∧ GetParam p plural = ParamOther)
  ∨ ((∃ x', indexPages plural pages x = Ok x')
     ∧ ∀ p, p ∈ pages → GetParam p plural ≠ ParamOther).
Proof.
  revert x. induction pages as [|p pages IH]; intros x.
  - right. split; [by eexists|]. intros p Hp. by apply elem_of_nil in Hp.
  - cbn [indexPages]. unfold addToIndex.
    destruct (GetParam p plural) as [|idxs|] eqn:Hv.
    + rewrite bind_Ok. destruct (IH x) as [[-> (q & Hq & Hv')]|[Hok Hall]].
      * left. split; [done|]. exists q. split; [by right | done].
      * right. split; [done|]. intros q [-> | Hq]%elem_of_cons;
          [by rewrite Hv | by apply Hall].
    + rewrite bind_Ok.
      destruct (IH (fold_left (fun x idx => Index_Add idx p x) idxs x))
        as [[-> (q & Hq & Hv')]|[Hok Hall]].
      * left. split; [done|]. exists q. split; [by right | done].
      * right. split; [done|]. intros q [-> | Hq]%elem_of_cons;
          [by rewrite Hv | by apply Hall].
    + left. split; [done|]. exists p. split; [by left | done].
Qed.

Lemma buildIndexes_outcome (plurals : list string) (pages : Pages)
  (indexes : gmap string (gmap string (list Page))) :
  (buildIndexes plurals pages indexes = Panic
   ∧ ∃ plural p, plural ∈ plurals ∧ p ∈ pages
                 ∧ GetParam p plural = ParamOther)
  ∨ ((∃ indexes', buildIndexes plurals pages indexes = Ok indexes')
     ∧ ∀ plural p, plural ∈ plurals → p ∈ pages →
                   GetParam p plural ≠ ParamOther).
Proof.
  revert indexes. induction plurals as [|plural plurals IH]; intros indexes.
  - right. split; [by eexists|]. intros plural p Hp.
    by apply elem_of_nil in Hp.
  - cbn [buildIndexes].
    destruct (indexPages_outcome plural pages ∅)
      as [[-> (q & Hq & Hv)]|[[x ->] Hall]].
    + left. split; [done|]. exists plural, q. split; [by left | done].
    + rewrite bind_Ok.
      destruct (IH (<[plural := Sort <$> x]> indexes))
        as [[-> (pl & q & Hpl & Hq & Hv)]|[Hok Hall']].
      * left. split; [done|]. exists pl, q. split; [by right | done].
      * right. split; [done|].
        intros pl q [-> | Hpl]%elem_of_cons Hq; [by apply Hall|].
        by apply Hall'.
Qed.

(** X18. [BuildSiteMeta] panics exactly when some page has, under one of the
    configured plurals, a parameter that is set and is no list of strings;
    in every other case it returns. *)
Theorem BuildSiteMeta_panics_iff :
  ∀ s,
    (BuildSiteMeta s = Panic
     ↔ ∃ plural p, plural ∈ map snd (Indexes_ (c s)) ∧ p ∈ Pages_ s
                   ∧ GetParam p plural = ParamOther)
    ∧ (BuildSiteMeta s ≠ Panic → ∃ s' err, BuildSiteMeta s = Ok (s', err)).
Proof.
  intros s. unfold BuildSiteMeta.
  cbn [set_Indexes set_Sections Pages_ c Indexes].
  destruct (buildIndexes_outcome (map snd (Indexes_ (c s))) (Pages_ s) ∅)
    as [[-> Hex]|[[indexes ->] Hall]].
  - split; [by split|]. by intros [].
  - rewrite bind_Ok. cbn [set_Indexes set_Sections set_Info Pages_].
    destruct (Pages_ s) as [|p0 more] eqn:Hp.
    + split; [|by eexists _, _]. split; [done|].
      intros (plural & p & _ & Hin & _). by apply elem_of_nil in Hin.
    + split; [|by eexists _, _]. split; [done|].
      intros (plural & p & Hpl & Hin & Hv). by destruct (Hall plural p).
Qed.

(** X19. When [BuildSiteMeta] returns without an error the site has a first
    page, whose date is the last change of the site, the site information
    holds the ordered list of the new indexes, and the pages are those it
    was given, each with the final site information. *)
Theorem BuildSiteMeta_success :
  ∀ s s',
    BuildSiteMeta s = Ok (s', None) →
    ∃ p0 more,
      Pages_ s = p0 :: more
      ∧ Info_LastChange (Info s') = Date p0
      ∧ Info_Indexes (Info s') = Some (BuildOrderedIndexList (Indexes s'))
      ∧ Pages_ s'
        = map (fun p => set_Site_Tmpl p (Some (Info s')) (Page_Tmpl p))
              (Pages_ s).
Proof.
  intros s s'. unfold BuildSiteMeta.
  cbn [set_Indexes set_Sections Pages_ c Indexes].
  intros (indexes & _ & H)%obind_Ok_inv.
  cbn [set_Indexes set_Sections set_Info Pages_ Info Indexes] in H.
  destruct (Pages_ s) as [|p0 more] eqn:Hp; [done|].
  injection H as <-. by exists p0, more.
Qed.

Lemma walk_fold (entries : list (string * bool)) s :
  let s' :=
    fold_left
      (fun site '(path, isDir) =>
         if isDir : bool
         then set_Directories site (Directories site ++ [path])
         else set_Files site (Files site ++ [path]))
      entries s in
  Files s' = Files s ++ map fst (List.filter (fun e => negb (snd e)) entries)
  ∧ Directories s'
    = Directories s ++ map fst (List.filter (fun e => snd e) entries)
  ∧ c s' = c s ∧ Pages_ s' = Pages_ s ∧ Tmpl s' = Tmpl s.
Proof.
  cbn zeta. revert s. induction entries as [|[path isDir] entries IH]; intros s.
  - cbn. by rewrite !app_nil_r.
  - cbn [fold_left]. destruct (IH (if isDir
                                   then set_Directories s (Directories s ++ [path])
                                   else set_Files s (Files s ++ [path])))
      as (Hf & Hd & Hc & Hp & Ht).
    rewrite Hf, Hd, Hc, Hp, Ht.
    destruct isDir; cbn [List.filter snd negb map fst set_Directories
                          set_Files Files Directories c Pages_ Tmpl];
      by rewrite <- ?app_assoc.
Qed.

(** X20. [initialize] ends the build when the layout directory or the
    content directory is missing, and only then. When it returns it has
    added the entries below the content directory, in the order of the walk,
    to the files of the site when they are no directories and to its
    directories when they are, and the site information has the base URL and
    the title of the configuration. *)
Theorem initialize_collects_files :
  ∀ s,
    let layouts := GetAbsPath (c s) (LayoutDir (c s)) in
    let content := GetAbsPath (c s) (ContentDir (c s)) in
    (initialize s = Panic
     ↔ dirExists layouts = false ∨ dirExists content = false)
    ∧ ∀ s',
        initialize s = Ok s' →
        Files s'
        = Files s
          ++ map fst (List.filter (fun e => negb (snd e)) (walk content))
        ∧ Directories s'
          = Directories s
            ++ map fst (List.filter (fun e => snd e) (walk content))
        ∧ Info s'
          = mkSiteInfo (BaseUrl (c s)) None 0 (Title (c s)) (Some (c s))
        ∧ Pages_ s' = Pages_ s.
Proof.
  intros s layouts content. unfold initialize, checkDirectories.
  fold layouts. fold content.
  destruct (dirExists layouts); cbn [negb];
    [destruct (dirExists content); cbn [negb]|].
  - rewrite bind_Ok. split; [split; [done | by intros [|]]|].
    intros s' [= <-]. cbn [set_Info Files Directories Info Pages_].
    destruct (walk_fold (walk content) s) as (Hf & Hd & Hc & Hp & _).
    cbn zeta in Hf, Hd, Hc, Hp. by rewrite Hf, Hd, Hc, Hp.
  - split; [split; [by right | done] | done].
  - split; [split; [by left | done] | done].
Qed.

Lemma set_Pages_set_Pages s (v w : Pages) :
  set_Pages (set_Pages s v) w = set_Pages s w.
Proof. reflexivity. Qed.

Lemma set_Pages_same s : set_Pages s (Pages_ s) = s.
Proof. by destruct s. Qed.










Lemma CreatePages_fold (files : list string) s :
  let s' :=
    fold_left
      (fun s fileName =>
         let page := NewPage fileName in
         let page := set_Site_Tmpl page (Some (Info s)) (Tmpl s) in
         let page := setOutFile s page in
         if BuildDrafts (c s) || negb (Draft page)
         then set_Pages s (Pages_ s ++ [page])
         else s)
      files s in
  s' = set_Pages s
         (Pages_ s
          ++ List.filter (spec.kept s) (map (spec.imported s) files)).
Proof.
  cbn zeta. revert s. induction files as [|f files IH]; intros s.
  - cbn. by rewrite app_nil_r, set_Pages_same.
  - cbn [fold_left map List.filter]. rewrite IH.
    change (setOutFile s (set_Site_Tmpl (NewPage f) (Some (Info s)) (Tmpl s)))
      with (spec.imported s f).
    change (BuildDrafts (c s) || negb (Draft (spec.imported s f)))
      with (spec.kept s (spec.imported s f)).
    destruct (spec.kept s (spec.imported s f)); [|done].
    rewrite set_Pages_set_Pages. cbn [set_Pages Pages_].
    by rewrite <- app_assoc.
Qed.

(** X25. With a [Sort] that only reorders, [CreatePages] adds to the pages
    of the site one page for each content file, except, unless drafts are to
    be built, the files whose page is a draft; it removes no page and
    changes nothing else of the site. *)
Theorem CreatePages_adds_pages_of_files :
  ∀ s,
    (∀ pages : Pages, Sort pages ≡ₚ pages) →
    Pages_ (CreatePages s)
      ≡ₚ Pages_ s
         ++ List.filter (spec.kept s) (map (spec.imported s) (Files s))
    ∧ set_Pages (CreatePages s) (Pages_ s) = s.
Proof.
  intros s Hsort. unfold CreatePages.
  pose proof (CreatePages_fold (Files s) s) as H. cbn zeta in H. rewrite H.
  cbn [set_Pages Pages_]. split; [apply Hsort|].
  by destruct s.
Qed.

Lemma WritePages_fold (pages : Pages) s (evs : list event) :
  fold_left
    (fun st p =>
       WritePublic (Section_ p ++ slash ++ OutFile p)%string
                   (RenderedContent p) st)
    pages (s, evs)
  = (s, evs ++ spec.writes pages).
Proof.
  revert evs. induction pages as [|p pages IH]; intros evs.
  - cbn. by rewrite app_nil_r.
  - cbn [fold_left WritePublic]. rewrite IH. cbn [spec.writes map].
    by rewrite <- app_assoc.
Qed.

(** X26. A build that returns no error ends by writing every page of the
    site: the last things it did are one write per page, in the order of the
    pages, of the rendered content of the page to the file named by its
    section and its output file, and the last step of its timer is [write
    pages]. *)
Theorem Build_success_writes_pages :
  ∀ st st',
    Build st = Ok (None, st') →
    ∃ (evs : list event) (steps : list string),
      snd st' = evs ++ spec.writes (Pages_ (fst st'))
      ∧ timer (fst st') = steps ++ ["write pages"].
Proof.
  intros st st' H. unfold Build in H.
  apply obind_Ok_inv in H as ([s1 err1] & _ & H).
  destruct err1 as [e|]; [done|].
  apply obind_Ok_inv in H as ([err2 [s2 evs2]] & _ & H).
  destruct err2 as [e|]; [done|]. injection H as <-.
  unfold Write, WritePages. cbn [fst]. rewrite WritePages_fold.
  exists evs2, (timer s2). by split.
Qed.

End SiteMore.

Section SiteMoreWitnesses.
Import site.

Lemma BuildSiteMeta_success_witness :
  ∃ s',
    @BuildSiteMeta (examples.demoExternal examples.tenFiles)
       (examples.demoEngine examples.tenFiles) examples.tenPageSite
    = Ok (s', None)
    ∧ ∃ p0 more,
        Pages_ examples.tenPageSite = p0 :: more
        ∧ Info_LastChange (Info s') = Date p0
        ∧ Info_Indexes (Info s')
          = Some (@BuildOrderedIndexList _
                    (examples.demoEngine examples.tenFiles) (Indexes s'))
        ∧ Pages_ s'
          = map (fun p => set_Site_Tmpl p (Some (Info s')) (Page_Tmpl p))
                (Pages_ examples.tenPageSite).
Proof.
  eexists.
  assert (H : @BuildSiteMeta (examples.demoExternal examples.tenFiles)
                (examples.demoEngine examples.tenFiles) examples.tenPageSite
              = Ok (_, None)) by (vm_compute; reflexivity).
  split; [exact H|].
  exact (@BuildSiteMeta_success (examples.demoExternal examples.tenFiles)
           (examples.demoEngine examples.tenFiles) _ _ H).
Defined.





Lemma CreatePages_adds_pages_of_files_witness :
  Pages_ (@CreatePages (examples.demoExternal ["a"; "draft-b"])
            (examples.mixedEngine ["a"; "draft-b"])
            (examples.mixedSite ["a"; "draft-b"]))
    ≡ₚ Pages_ (examples.mixedSite ["a"; "draft-b"])
       ++ List.filter (spec.kept (examples.mixedSite ["a"; "draft-b"]))
            (map (@spec.imported _ (examples.mixedEngine ["a"; "draft-b"])
                    (examples.mixedSite ["a"; "draft-b"]))
                 (Files (examples.mixedSite ["a"; "draft-b"])))
  ∧ set_Pages
      (@CreatePages (examples.demoExternal ["a"; "draft-b"])
         (examples.mixedEngine ["a"; "draft-b"])
         (examples.mixedSite ["a"; "draft-b"]))
      (Pages_ (examples.mixedSite ["a"; "draft-b"]))
    = examples.mixedSite ["a"; "draft-b"].
Proof.
  apply (@CreatePages_adds_pages_of_files
           (examples.demoExternal ["a"; "draft-b"])
           (examples.mixedEngine ["a"; "draft-b"])
           (examples.mixedSite ["a"; "draft-b"])).
  intros pages. reflexivity.
Defined.

(** Of the files [a] and [draft-b] only [a] becomes a new page. *)
Example CreatePages_draft :
  map FileName
    (Pages_ (@CreatePages (examples.demoExternal ["a"; "draft-b"])
               (examples.mixedEngine ["a"; "draft-b"])
               (@set_Pages (examples.demoExternal ["a"; "draft-b"])
                  (examples.mixedSite ["a"; "draft-b"]) [])))
  = ["a"].
Proof. vm_compute. reflexivity. Qed.

Lemma Build_success_writes_pages_witness :
  @Build (examples.demoExternal ["a"; "b"]) (examples.demoEngine ["a"; "b"])
     (examples.demoSite ["a"; "b"], [])
  = Ok (None, examples.builtTwoPages)
  ∧ ∃ (evs : list event) (steps : list string),
      snd examples.builtTwoPages
      = evs ++ spec.writes (Pages_ (fst examples.builtTwoPages))
      ∧ timer (fst examples.builtTwoPages) = steps ++ ["write pages"].
Proof.
  assert (H : @Build (examples.demoExternal ["a"; "b"])
                (examples.demoEngine ["a"; "b"])
                (examples.demoSite ["a"; "b"], [])
              = Ok (None, examples.builtTwoPages))
    by (vm_compute; reflexivity).
  split; [exact H|].
  exact (@Build_success_writes_pages (examples.demoExternal ["a"; "b"])
           (examples.demoEngine ["a"; "b"]) _ _ H).
Defined.

End SiteMoreWitnesses.
